(** * Player: hydration, serialization, room transitions and event relay

    A shallow embedding of the [Player] class (the class that extends
    [Character]) together with the facts its specification states about
    it.  Objects with identity (rooms, players) are references; the
    membership sets of the rooms, the item registry and the ordered record
    of every call that leaves the [Player] object live in a [World] that
    is threaded through the methods.  Code that throws returns [Err].

    The classes [Player] builds on (Character, Room, QuestTracker,
    CommandQueue, the inventory, the items and the managers reached through
    the game state) are not part of the sources at hand.  What they compute
    is kept abstract in the interface [Collaborators]; the few operations
    whose effect the specification spells out are modelled from it and
    marked as such. *)

From stdpp Require Import gmap strings list fin_maps pretty.
From Stdlib Require Import ZArith Ascii.

(** ** JavaScript data *)

(** Plain data as it is found in snapshots, descriptors and prompt data.
    An object is the list of its own properties in insertion order. *)
#[warnings="-register-all"]
Inductive Value : Type :=
| VUndefined
| VNull
| VBool (b : bool)
| VNum (n : Z)
| VStr (s : string)
| VObj (props : list (string * Value)).

(** The value carried by a [throw], an [Error] object; [message] is
    [e.message]. *)
Record Error : Type := MkError { message : string }.

Definition TypeError (msg : string) : Error := MkError msg.

Inductive Result (A : Type) : Type :=
| Ok (a : A)
| Err (e : Error).
Arguments Ok {A} a.
Arguments Err {A} e.

(** Sequencing of code that may throw: [x ← m; k] runs [k] unless [m]
    threw. *)
#[global] Instance Result_bind : MBind Result := fun A B k m =>
  match m with
  | Ok a => k a
  | Err e => Err e
  end.

(** JavaScript truthiness ([v || d], [v && e]). *)
Definition truthy (v : Value) : bool :=
  match v with
  | VUndefined | VNull => false
  | VBool b => b
  | VNum n => negb (Z.eqb n 0)
  | VStr s => negb (String.eqb s "")
  | VObj _ => true
  end.

Definition succeeds {A : Type} (m : Result A) : Prop :=
  match m with Ok _ => True | Err _ => False end.

Definition throws {A : Type} (m : Result A) : Prop :=
  match m with Ok _ => False | Err _ => True end.

(** ** Object references *)

Abbreviation RoomRef := positive.
Abbreviation PlayerRef := positive.

(** The [room] field: [null], the identifier string of a snapshot, or a
    live room. *)
Inductive RoomField : Type :=
| RoomNull
| RoomId (id : string)
| RoomLive (r : RoomRef).

(** JavaScript truthiness of the [room] field ([this.room && ...]). *)
Definition room_truthy (f : RoomField) : bool :=
  match f with
  | RoomNull => false
  | RoomId id => negb (String.eqb id "")
  | RoomLive _ => true
  end.

(** [this.room !== nextRoom] where [nextRoom] is a live room. *)
Definition room_differs (f : RoomField) (nextRoom : RoomRef) : bool :=
  match f with
  | RoomLive r => negb (Pos.eqb r nextRoom)
  | _ => true
  end.

(** The [onMoved] argument of [moveTo]: the default [_ => _] or a function
    supplied by the caller. *)
Inductive Callback : Type :=
| identity_callback
| user_callback (id : nat).

(** ** The game state handed to [hydrate] *)

(** Modelled from the spec: the managers of [state] are not among the
    sources.  Section 6 has them look objects up by identifier: the
    account directory ([getAccount]), the room directory ([getRoom]), the
    areas ([getArea]) and the rooms of the placeholder area
    ([getPlaceholderArea().getRoomById]); a failed lookup is [None]. *)
Record GameState (Account Area : Type) : Type := MkGameState {
  AccountManager : gmap string Account;
  RoomManager : gmap string RoomRef;
  AreaManager : gmap string Area;
  PlaceholderArea : gmap string RoomRef
}.
Arguments AccountManager {Account Area} _.
Arguments RoomManager {Account Area} _.
Arguments AreaManager {Account Area} _.
Arguments PlaceholderArea {Account Area} _.

(** The [quests] entry of a snapshot. *)
Record QuestData : Type := MkQuestData {
  completed : list Value;
  active : list Value
}.

(** ** The classes the Player is built on

    One field per operation that [Player] calls on a class that is not
    among the sources.  An operation that may throw returns a [Result] or
    an optional [Error]. *)
Class Collaborators : Type := {
  Account : Type;
  Area : Type;
  Item : Type;
  Inventory : Type;
  QuestTracker : Type;
  CommandQueue : Type;
  Executable : Type;
  Lag : Type;
  (* Account: [account.name] *)
  Account_name : Account -> string;
  (* Room: the identifier a room is filed under *)
  Room_entityReference : RoomRef -> string;
  (* CommandQueue *)
  CommandQueue_new : CommandQueue;
  CommandQueue_enqueue : CommandQueue -> Executable -> Lag -> Z * CommandQueue;
  (* QuestTracker *)
  QuestTracker_new : list Value -> list Value -> QuestTracker;
  QuestTracker_hydrate :
    GameState Account Area -> QuestTracker -> Result QuestTracker;
  QuestTracker_serialize : QuestTracker -> QuestData;
  (* Inventory; [None] is a maximum that is not finite *)
  Inventory_new : Value -> Inventory;
  Inventory_getMax : Inventory -> option Z;
  Inventory_setMax : Z -> Inventory -> Inventory;
  Inventory_hydrate :
    GameState Account Area -> Inventory -> Result Inventory;
  Inventory_serialize : Inventory -> Value;
  (* Config.get('defaultMaxPlayerInventory') *)
  Config_defaultMaxPlayerInventory : option Z;
  (* ItemFactory, Item, ItemManager *)
  ItemFactory_create :
    GameState Account Area -> option Area -> Value -> Result Item;
  Item_initializeInventory : Item -> Value -> Result Item;
  Item_hydrate : GameState Account Area -> Item -> Value -> Result Item;
  ItemManager_add_refuses : Item -> option Error;
  Item_emit : Item -> string -> option Error;
  Item_serialize : Item -> Value;
  (* Character.equip: the error it throws for an item and a slot, if any *)
  Character_equip_refuses : Item -> string -> option Error;
  (* PlayerRoles.PLAYER *)
  PlayerRoles_PLAYER : Value
}.

(** ** The Player and the world around it *)

Section Model.
Context {collaborators : Collaborators}.

(** The [account] field: [null], [undefined] (a lookup that found
    nothing), the identifier string of a snapshot, or a live account. *)
Inductive AccountField : Type :=
| AccountNull
| AccountUndefined
| AccountId (id : string)
| AccountLive (a : Account).

(** The [equipment] field: absent, the slot-to-descriptor object of a
    snapshot, or the [Map] from slot to item. *)
Inductive EquipmentField : Type :=
| EquipmentAbsent
| EquipmentLegacy (eqDefs : gmap string Value)
| EquipmentMap (m : gmap string Item).

(** Modelled from the spec: the attribute store and its getters are not
    among the sources.  One tracked attribute is what [getAttribute],
    [getMaxAttribute] and [getBaseAttribute] report for it. *)
Record Attribute : Type := MkAttribute {
  attr_current : Z;
  attr_max : Z;
  attr_base : Z
}.

Record Player : Type := MkPlayer {
  ref : PlayerRef;
  name : string;
  account : AccountField;
  experience : Z;
  password : Value;
  prompt : string;
  questTracker : QuestTracker;
  commandQueue : CommandQueue;
  role : Value;
  room : RoomField;
  inventory : Inventory;
  equipment : EquipmentField;
  attributes : list (string * Attribute);
  metadata : Value;
  __hydrated : bool;   (* __hydrated *)
  __pruned : bool      (* __pruned *)
}.

Definition set_account (a : AccountField) (p : Player) : Player :=
  MkPlayer (ref p) (name p) a (experience p) (password p) (prompt p)
    (questTracker p) (commandQueue p) (role p) (room p) (inventory p)
    (equipment p) (attributes p) (metadata p) (__hydrated p) (__pruned p).

Definition set_questTracker (q : QuestTracker) (p : Player) : Player :=
  MkPlayer (ref p) (name p) (account p) (experience p) (password p) (prompt p)
    q (commandQueue p) (role p) (room p) (inventory p)
    (equipment p) (attributes p) (metadata p) (__hydrated p) (__pruned p).

Definition set_commandQueue (q : CommandQueue) (p : Player) : Player :=
  MkPlayer (ref p) (name p) (account p) (experience p) (password p) (prompt p)
    (questTracker p) q (role p) (room p) (inventory p)
    (equipment p) (attributes p) (metadata p) (__hydrated p) (__pruned p).

Definition set_room (r : RoomField) (p : Player) : Player :=
  MkPlayer (ref p) (name p) (account p) (experience p) (password p) (prompt p)
    (questTracker p) (commandQueue p) (role p) r (inventory p)
    (equipment p) (attributes p) (metadata p) (__hydrated p) (__pruned p).

Definition set_inventory (i : Inventory) (p : Player) : Player :=
  MkPlayer (ref p) (name p) (account p) (experience p) (password p) (prompt p)
    (questTracker p) (commandQueue p) (role p) (room p) i
    (equipment p) (attributes p) (metadata p) (__hydrated p) (__pruned p).

Definition set_equipment (e : EquipmentField) (p : Player) : Player :=
  MkPlayer (ref p) (name p) (account p) (experience p) (password p) (prompt p)
    (questTracker p) (commandQueue p) (role p) (room p) (inventory p)
    e (attributes p) (metadata p) (__hydrated p) (__pruned p).

Definition set_hydrated (b : bool) (p : Player) : Player :=
  MkPlayer (ref p) (name p) (account p) (experience p) (password p) (prompt p)
    (questTracker p) (commandQueue p) (role p) (room p) (inventory p)
    (equipment p) (attributes p) (metadata p) b (__pruned p).

(** The entity manager sets [__pruned] when the player is torn down. *)
Definition set_pruned (b : bool) (p : Player) : Player :=
  MkPlayer (ref p) (name p) (account p) (experience p) (password p) (prompt p)
    (questTracker p) (commandQueue p) (role p) (room p) (inventory p)
    (equipment p) (attributes p) (metadata p) (__hydrated p) b.

(** An argument of an event. *)
Inductive Arg : Type :=
| APlayer (p : PlayerRef)
| ARoom (f : RoomField)
| AIndex (i : Z)
| AFunction (c : Callback)
| AValue (v : Value).

(** The event bus a notification is published on. *)
Inductive Bus : Type :=
| OnRoom (r : RoomRef)
| OnPlayer (p : PlayerRef)
| OnQuestTracker (p : PlayerRef)
| OnItem (i : Item).

(** What a method does to the objects around the player, one entry per
    statement, in program order.  Subscribers and callbacks are code from
    elsewhere: the record keeps that they were reached and with what. *)
Inductive Effect : Type :=
| Publish (b : Bus) (event : string) (args : list Arg)
| RemovePlayer (r : RoomRef) (p : PlayerRef)
| AssignRoom (p : PlayerRef) (r : RoomRef)
| AddPlayer (r : RoomRef) (p : PlayerRef)
| Invoke (c : Callback)
| LogError (msg : string).

Record World : Type := MkWorld {
  members : gmap RoomRef (gset PlayerRef);   (* room.players, per room *)
  registry : list Item;                      (* state.ItemManager *)
  trace : list Effect
}.

Definition record (e : Effect) (w : World) : World :=
  MkWorld (members w) (registry w) (trace w ++ [e]).

Definition set_members (m : gmap RoomRef (gset PlayerRef)) (w : World) : World :=
  MkWorld m (registry w) (trace w).

Definition set_registry (l : list Item) (w : World) : World :=
  MkWorld (members w) l (trace w).

(** The players in room [r]. *)
Definition players (w : World) (r : RoomRef) : gset PlayerRef :=
  default ∅ (members w !! r).

(** Modelled from the spec: Room.emit is not among the sources; it
    publishes a notification on the room. *)
Definition Room_emit (r : RoomRef) (event : string) (args : list Arg)
    (w : World) : World :=
  record (Publish (OnRoom r) event args) w.

(** Modelled from the spec: Room.removePlayer is not among the sources; it
    removes the player from the membership of the room. *)
Definition Room_removePlayer (r : RoomRef) (p : PlayerRef) (w : World) : World :=
  record (RemovePlayer r p)
    (set_members (<[r := players w r ∖ {[p]}]> (members w)) w).

(** Modelled from the spec: Room.addPlayer is not among the sources; it
    adds the player to the membership of the room. *)
Definition Room_addPlayer (r : RoomRef) (p : PlayerRef) (w : World) : World :=
  record (AddPlayer r p)
    (set_members (<[r := {[p]} ∪ players w r]> (members w)) w).

(** Modelled from the spec: the [emit] that Player inherits ([super.emit])
    is not among the sources; it publishes to the subscribers of the
    player itself. *)
Definition Character_emit (p : Player) (event : string) (args : list Arg)
    (w : World) : World :=
  record (Publish (OnPlayer (ref p)) event args) w.

(** Modelled from the spec: QuestTracker.emit is not among the sources; it
    publishes on the event bus of the quest tracker. *)
Definition QuestTracker_emit (p : Player) (event : string) (args : list Arg)
    (w : World) : World :=
  record (Publish (OnQuestTracker (ref p)) event args) w.

(** [Player.emit] (lines 62-70). *)
Definition emit (p : Player) (event : string) (args : list Arg)
    (w : World) : World :=
  if __pruned p || negb (__hydrated p) then w
  else QuestTracker_emit p event args (Character_emit p event args w).

(** [Player.queueCommand] (lines 52-55).  The method has no [return]
    statement: its value is [undefined]. *)
Definition queueCommand (executable : Executable) (lag : Lag)
    (p : Player) (w : World) : Value * Player * World :=
  let '(index, q) := CommandQueue_enqueue (commandQueue p) executable lag in
  let p := set_commandQueue q p in
  (VUndefined, p, emit p "commandQueued" [AIndex index] w).

(** [onMoved()]: the callback is code from elsewhere, the record keeps
    that it was called. *)
Definition call (onMoved : Callback) (w : World) : World :=
  record (Invoke onMoved) w.

(** [Player.moveTo] (lines 135-163).  A [room] field that still holds an
    identifier string has no [emit] method: the call on it throws. *)
Definition moveTo (nextRoom : RoomRef) (onMoved : Callback)
    (p : Player) (w : World) : Result (Player * World) :=
  let prevRoom := room p in
  w ← (if room_truthy (room p) && room_differs (room p) nextRoom then
         match room p with
         | RoomLive r =>
             let w := Room_emit r "playerLeave"
                        [APlayer (ref p); ARoom (RoomLive nextRoom)] w in
             Ok (Room_removePlayer r (ref p) w)
         | _ => Err (TypeError "this.room.emit is not a function")
         end
       else Ok w);
  let p := set_room (RoomLive nextRoom) p in
  let w := record (AssignRoom (ref p) nextRoom) w in
  let w := Room_addPlayer nextRoom (ref p) w in
  let w := call onMoved w in
  let w := Room_emit nextRoom "playerEnter" [APlayer (ref p); ARoom prevRoom] w in
  Ok (p, emit p "enterRoom" [ARoom (RoomLive nextRoom)] w).

(** [Player.save] (lines 165-171). *)
Definition save (callback : Arg) (p : Player) (w : World) : World :=
  if negb (__hydrated p) then w
  else emit p "save" [callback] w.

(** *** Prompt interpolation *)

(** [obj[key] = v] on an object: an existing property keeps its place. *)
Fixpoint obj_set (key : string) (v : Value) (props : list (string * Value))
    : list (string * Value) :=
  match props with
  | [] => [(key, v)]
  | (k, x) :: rest =>
      if String.eqb k key then (k, v) :: rest
      else (k, x) :: obj_set key v rest
  end.

Fixpoint obj_get (key : string) (props : list (string * Value)) : Value :=
  match props with
  | [] => VUndefined
  | (k, x) :: rest => if String.eqb k key then x else obj_get key rest
  end.

(** [Object.assign(target, source)]. *)
Definition Object_assign (target source : list (string * Value))
    : list (string * Value) :=
  foldl (fun acc kv => obj_set kv.1 kv.2 acc) target source.

(** [obj[index]] for a truthy [obj] and a key made of lower-case letters.
    Properties inherited from a prototype are outside the model. *)
Definition property (obj : Value) (index : string) : Value :=
  match obj with
  | VObj props => obj_get index props
  | VStr s => if String.eqb index "length" then VNum (Z.of_nat (String.length s))
              else VUndefined
  | _ => VUndefined
  end.

(** [String(v)], the text [String.prototype.replace] inserts. *)
Definition to_string (v : Value) : string :=
  match v with
  | VUndefined => "undefined"
  | VNull => "null"
  | VBool true => "true"
  | VBool false => "false"
  | VNum n => pretty n
  | VStr s => s
  | VObj _ => "[object Object]"
  end.

Definition is_token_char (c : ascii) : bool :=
  let n := nat_of_ascii c in
  ((97 <=? n)%nat && (n <=? 122)%nat) || Ascii.eqb c "."%char.

(** The longest prefix of [s] within [[a-z.]], and what follows it. *)
Fixpoint span_token (s : string) : string * string :=
  match s with
  | String c rest =>
      if is_token_char c then
        let '(tok, after) := span_token rest in (String c tok, after)
      else (EmptyString, s)
  | EmptyString => (EmptyString, EmptyString)
  end.

(** [promptStr.match(/%([a-z\.]+)%/)]: the leftmost match, as the text
    before it, the captured token and the text after it. *)
Fixpoint match_token (s : string) : option (string * string * string) :=
  match s with
  | EmptyString => None
  | String c rest =>
      let later :=
        match match_token rest with
        | Some (before, tok, after) => Some (String c before, tok, after)
        | None => None
        end in
      if Ascii.eqb c "%"%char then
        match span_token rest with
        | (String t ts, String d after) =>
            if Ascii.eqb d "%"%char then Some (EmptyString, String t ts, after)
            else later
        | _ => later
        end
      else later
  end.

(** [token.split('.')]. *)
Fixpoint split_dots (s : string) : list string :=
  match s with
  | EmptyString => [EmptyString]
  | String c rest =>
      if Ascii.eqb c "."%char then EmptyString :: split_dots rest
      else match split_dots rest with
           | piece :: pieces => String c piece :: pieces
           | [] => [String c EmptyString]
           end
  end.

(** The replacement patterns of [String.prototype.replace]: [$$], [$&],
    [$`] and [$']. *)
Fixpoint expand_replacement (rep matched before after : string) : string :=
  match rep with
  | EmptyString => EmptyString
  | String c rest =>
      if Ascii.eqb c "$"%char then
        match rest with
        | String d rest' =>
            if Ascii.eqb d "$"%char then
              String "$" (expand_replacement rest' matched before after)
            else if Ascii.eqb d "&"%char then
              matched +:+ expand_replacement rest' matched before after
            else if Ascii.eqb d "`"%char then
              before +:+ expand_replacement rest' matched before after
            else if Ascii.eqb d "'"%char then
              after +:+ expand_replacement rest' matched before after
            else String c (expand_replacement rest matched before after)
        | EmptyString => String c EmptyString
        end
      else String c (expand_replacement rest matched before after)
  end.

(** [str.replace(pattern, replacement)] for a string pattern: only the
    first occurrence is replaced. *)
Definition String_replace (pattern : string) (replacement : Value)
    (str : string) : string :=
  match String.index 0 pattern str with
  | Some i =>
      let before := String.substring 0 i str in
      let after := String.substring (i + String.length pattern)
                     (String.length str - (i + String.length pattern)) str in
      before +:+ expand_replacement (to_string replacement) pattern before after
             +:+ after
  | None => str
  end.

(** The value a token stands for (lines 91-94): the walk
    [token.split('.').reduce((obj, index) => obj && obj[index], promptData)]
    and the text that replaces a missing value. *)
Definition resolve_token (promptData : Value) (token : string) : Value :=
  let promptValue :=
    foldl (fun obj index => if truthy obj then property obj index else obj)
          promptData (split_dots token) in
  match promptValue with
  | VNull | VUndefined => VStr "invalid-token"
  | _ => promptValue
  end.

(** The [while] loop of [interpolatePrompt]; each round of the loop takes
    one unit of [fuel], [None] is a loop still running when it is spent. *)
Fixpoint interpolate_loop (fuel : nat) (promptData : Value)
    (promptStr : string) : option string :=
  match match_token promptStr with
  | None => Some promptStr
  | Some (_, token, _) =>
      match fuel with
      | O => None
      | S fuel' =>
          interpolate_loop fuel' promptData
            (String_replace ("%" +:+ token +:+ "%")
                            (resolve_token promptData token) promptStr)
      end
  end.

(** The entry of [attributeData] for one attribute (lines 80-84). *)
Definition attribute_entry (a : Attribute) : Value :=
  VObj [("current", VNum (attr_current a));
        ("max", VNum (attr_max a));
        ("base", VNum (attr_base a))].

(** The loop over the attributes (lines 78-85). *)
Definition attributeData (p : Player) : list (string * Value) :=
  foldl (fun acc av => obj_set av.1 (attribute_entry av.2) acc)
        [] (attributes p).

(** [Player.interpolatePrompt] (lines 77-99). *)
Definition interpolatePrompt (fuel : nat) (p : Player) (promptStr : string)
    (extraData : list (string * Value)) : option string :=
  let promptData := Object_assign (attributeData p) extraData in
  interpolate_loop fuel (VObj promptData) promptStr.

(** *** Construction *)

(** The [quests] property of the constructor data: either list may be
    missing. *)
Record QuestInput : Type := MkQuestInput {
  input_completed : option (list Value);
  input_active : option (list Value)
}.

(** The [data] object handed to the constructor. *)
Record PlayerData : Type := MkPlayerData {
  data_name : string;
  data_account : AccountField;
  data_experience : option Z;
  data_password : Value;
  data_prompt : option string;
  data_quests : option QuestInput;
  data_role : Value;
  data_room : RoomField;
  data_inventory : Value;
  data_equipment : EquipmentField;
  data_attributes : list (string * Attribute);
  data_metadata : Value
}.

(** [data.account || null]. *)
Definition account_or_null (a : AccountField) : AccountField :=
  match a with
  | AccountUndefined => AccountNull
  | AccountId id => if String.eqb id "" then AccountNull else a
  | _ => a
  end.

(** [Object.assign({completed: [], active: []}, data.quests)]. *)
Definition questData_of (q : option QuestInput) : QuestData :=
  match q with
  | Some q => MkQuestData (default [] (input_completed q))
                          (default [] (input_active q))
  | None => MkQuestData [] []
  end.

(** [Config.get('defaultMaxPlayerInventory') || 20]. *)
Definition default_max_inventory : Z :=
  match Config_defaultMaxPlayerInventory with
  | Some n => if Z.eqb n 0 then 20%Z else n
  | None => 20%Z
  end.

(** The fields the constructor of Character fills in. *)
Record CharacterFields : Type := MkCharacterFields {
  base_name : string;
  base_room : RoomField;
  base_inventory : Inventory;
  base_equipment : EquipmentField;
  base_attributes : list (string * Attribute);
  base_metadata : Value
}.

(** Modelled from the spec: the constructor of Character ([super(data)])
    is not among the sources.  Section 3 has the entity carry the name,
    the room (an identifier before hydration), the inventory, the
    equipment (in either shape), the attributes and the metadata of its
    data, and start out neither hydrated nor pruned. *)
Definition Character_new (data : PlayerData) : CharacterFields :=
  {| base_name := data_name data;
     base_room := data_room data;
     base_inventory := Inventory_new (data_inventory data);
     base_equipment := data_equipment data;
     base_attributes := data_attributes data;
     base_metadata := data_metadata data |}.

(** The constructor (lines 25-47) of the object with identity [self].
    The socket and the extra prompts play no part in what follows and are
    left out. *)
Definition Player_new (self : PlayerRef) (data : PlayerData) : Player :=
  let base := Character_new data in
  let questData := questData_of (data_quests data) in
  let inv := match Inventory_getMax (base_inventory base) with
             | None => Inventory_setMax default_max_inventory
                         (base_inventory base)
             | Some _ => base_inventory base
             end in
  {| ref := self;
     name := base_name base;
     account := account_or_null (data_account data);
     experience := default 0%Z (data_experience data);
     password := data_password data;
     prompt := match data_prompt data with
               | Some s => if String.eqb s "" then "> " else s
               | None => "> "
               end;
     questTracker := QuestTracker_new (active questData) (completed questData);
     commandQueue := CommandQueue_new;
     role := if truthy (data_role data) then data_role data
             else PlayerRoles_PLAYER;
     room := base_room base;
     inventory := inv;
     equipment := base_equipment base;
     attributes := base_attributes base;
     metadata := base_metadata base;
     __hydrated := false;
     __pruned := false |}.

(** *** Hydration *)

(** [itemDef.key]: reading a property of [null] or [undefined] throws. *)
Definition read (itemDef : Value) (key : string) : Result Value :=
  match itemDef with
  | VUndefined | VNull =>
      Err (TypeError ("Cannot read properties of " +:+ to_string itemDef
                      +:+ " (reading '" +:+ key +:+ "')"))
  | _ => Ok (property itemDef key)
  end.

(** [state.AreaManager.getArea(area)]. *)
Definition getArea (state : GameState Account Area) (area : Value)
    : option Area :=
  match area with
  | VStr id => AreaManager state !! id
  | _ => None
  end.

(** The first three statements of the [try] block (lines 195-197): the
    item for a descriptor. *)
Definition build_item (state : GameState Account Area) (itemDef : Value)
    : Result Item :=
  area ← read itemDef "area";
  entityReference ← read itemDef "entityReference";
  newItem ← ItemFactory_create state (getArea state area) entityReference;
  inv ← read itemDef "inventory";
  newItem ← Item_initializeInventory newItem inv;
  Item_hydrate state newItem itemDef.

(** The equipment [Map] of a player whose field is in mapping form. *)
Definition equipment_map (p : Player) : gmap string Item :=
  match equipment p with
  | EquipmentMap m => m
  | _ => ∅
  end.

(** Modelled from the spec: Character.equip is not among the sources; it
    equips the item into the slot, unless it throws. *)
Definition Character_equip (item : Item) (slot : string) (p : Player)
    : Result Player :=
  match Character_equip_refuses item slot with
  | Some e => Err e
  | None => Ok (set_equipment (EquipmentMap (<[slot := item]> (equipment_map p))) p)
  end.

(** Modelled from the spec: ItemManager.add is not among the sources; it
    registers the item with the item registry, unless it throws. *)
Definition ItemManager_add (item : Item) (w : World) : Result World :=
  match ItemManager_add_refuses item with
  | Some e => Err e
  | None => Ok (set_registry (registry w ++ [item]) w)
  end.

(** The body of the [try] block (lines 195-203) for one slot: the state
    it leaves behind, and the exception that ended it, if any. *)
Definition try_slot (state : GameState Account Area) (slot : string)
    (itemDef : Value) (p : Player) (w : World) : Player * World * option Error :=
  match build_item state itemDef with
  | Err e => (p, w, Some e)
  | Ok newItem =>
      match ItemManager_add newItem w with
      | Err e => (p, w, Some e)
      | Ok w =>
          match Character_equip newItem slot p with
          | Err e => (p, w, Some e)
          | Ok p =>
              let w := record (Publish (OnItem newItem) "spawn" []) w in
              (p, w, Item_emit newItem "spawn")
          end
      end
  end.

(** One round of the loop over the slots (lines 192-207): the [try]
    block and its [catch]. *)
Definition hydrate_slot (state : GameState Account Area)
    (slot : string) (itemDef : Value) (pw : Player * World) : Player * World :=
  let '(p, w, thrown) := try_slot state slot itemDef pw.1 pw.2 in
  match thrown with
  | Some e => (p, record (LogError (message e)) w)
  | None => (p, w)
  end.

(** The equipment stage of [hydrate] (lines 189-210).  The slots of the
    descriptor object are visited in the order in which the map
    enumerates them. *)
Definition hydrate_equipment (state : GameState Account Area)
    (p : Player) (w : World) : Player * World :=
  match equipment p with
  | EquipmentLegacy eqDefs =>
      map_fold (hydrate_slot state) (set_equipment (EquipmentMap ∅) p, w) eqDefs
  | _ => (set_equipment (EquipmentMap ∅) p, w)
  end.

(** Modelled from the spec: Character.hydrate ([super.hydrate]) is not
    among the sources.  Hydration marks the entity as hydrated, and
    [Player.hydrate] has no statement of its own that does; the events
    fired by the later stages already reach the quest tracker (comment on
    lines 176-177), so the mark is set here. *)
Definition Character_hydrate (p : Player) : Player :=
  set_hydrated true p.

(** [state.AccountManager.getAccount(id)]. *)
Definition getAccount (state : GameState Account Area) (id : string)
    : AccountField :=
  match AccountManager state !! id with
  | Some a => AccountLive a
  | None => AccountUndefined
  end.

(** The diagnostic of line 215. *)
Definition invalid_room_message (p : Player) (id : string) : string :=
  "ERROR: Player " +:+ name p +:+ " was saved to invalid room " +:+ id +:+ ".".

(** The room stage of [hydrate] (lines 212-221).  A placeholder area
    without a room named [placeholder] leaves [room] undefined, and
    [moveTo] throws on it. *)
Definition hydrate_room (state : GameState Account Area)
    (p : Player) (w : World) : Result (Player * World) :=
  match room p with
  | RoomId id =>
      let '(found, w) :=
        match RoomManager state !! id with
        | Some r => (Some r, w)
        | None =>
            (PlaceholderArea state !! "placeholder",
             record (LogError (invalid_room_message p id)) w)
        end in
      match found with
      | Some r => moveTo r identity_callback (set_room (RoomLive r) p) w
      | None =>
          Err (TypeError
                 "Cannot read properties of undefined (reading 'addPlayer')")
      end
  | _ => Ok (p, w)
  end.

(** The account stage of [hydrate] (lines 180-182). *)
Definition hydrate_account (state : GameState Account Area) (p : Player)
    : Player :=
  match account p with
  | AccountId id => set_account (getAccount state id) p
  | _ => p
  end.

(** [Player.hydrate] (lines 173-222). *)
Definition hydrate (state : GameState Account Area)
    (p : Player) (w : World) : Result (Player * World) :=
  let p := Character_hydrate p in
  tracker ← QuestTracker_hydrate state (questTracker p);
  let p := set_questTracker tracker p in
  let p := hydrate_account state p in
  inv ← Inventory_hydrate state (inventory p);
  let p := set_inventory inv p in
  let pw := hydrate_equipment state p w in
  hydrate_room state pw.1 pw.2.

(** *** Serialization *)

(** What [serialize] returns. *)
Record Snapshot : Type := MkSnapshot {
  snapshot_name : string;
  snapshot_room : Value;
  snapshot_account : Value;
  snapshot_experience : Z;
  snapshot_inventory : Value;
  snapshot_metadata : Value;
  snapshot_password : Value;
  snapshot_prompt : string;
  snapshot_quests : QuestData;
  snapshot_role : Value;
  snapshot_equipment : option (gmap string Value)
}.

(** Modelled from the spec: Character.serialize ([super.serialize]) is
    not among the sources.  It flattens the live room to its identifier;
    a [room] that is no live reference has none to give. *)
Definition Character_serialize (p : Player) : string * Value :=
  (name p,
   match room p with
   | RoomLive r => VStr (Room_entityReference r)
   | _ => VUndefined
   end).

(** [this.account.name]: [null] and [undefined] have no properties, a
    string has no [name]. *)
Definition account_name (a : AccountField) : Result Value :=
  match a with
  | AccountLive a => Ok (VStr (Account_name a))
  | AccountId _ => Ok VUndefined
  | AccountNull =>
      Err (TypeError "Cannot read properties of null (reading 'name')")
  | AccountUndefined =>
      Err (TypeError "Cannot read properties of undefined (reading 'name')")
  end.

(** [Player.serialize] (lines 224-247). *)
Definition serialize (p : Player) : Result Snapshot :=
  let base := Character_serialize p in
  accountName ← account_name (account p);
  Ok {| snapshot_name := base.1;
        snapshot_room := base.2;
        snapshot_account := accountName;
        snapshot_experience := experience p;
        snapshot_inventory := Inventory_serialize (inventory p);
        snapshot_metadata := metadata p;
        snapshot_password := password p;
        snapshot_prompt := prompt p;
        snapshot_quests := QuestTracker_serialize (questTracker p);
        snapshot_role := role p;
        snapshot_equipment :=
          match equipment p with
          | EquipmentMap m => Some (Item_serialize <$> m)
          | _ => None
          end |}.

End Model.

(** ** Reading the record of effects *)

Section Observations.
Context {collaborators : Collaborators}.

(** A notification [event] published on room [r]. *)
Definition on_room (r : RoomRef) (event : string) (e : Effect) : bool :=
  match e with
  | Publish (OnRoom r') event' _ => Pos.eqb r' r && String.eqb event' event
  | _ => false
  end.

(** A notification [event] published to the subscribers of player [p]. *)
Definition on_player (p : PlayerRef) (event : string) (e : Effect) : bool :=
  match e with
  | Publish (OnPlayer p') event' _ => Pos.eqb p' p && String.eqb event' event
  | _ => false
  end.

(** A notification relayed to the quest tracker. *)
Definition on_quest_tracker (e : Effect) : bool :=
  match e with
  | Publish (OnQuestTracker _) _ _ => true
  | _ => false
  end.

Definition logged (e : Effect) : bool :=
  match e with
  | LogError _ => true
  | _ => false
  end.

Fixpoint count (f : Effect -> bool) (tr : list Effect) : nat :=
  match tr with
  | [] => 0
  | e :: rest => (if f e then 1 else 0) + count f rest
  end.

(** What [emit] adds to the record of effects. *)
Definition emitted (p : Player) (event : string) (args : list Arg)
    : list Effect :=
  if __pruned p || negb (__hydrated p) then []
  else [Publish (OnPlayer (ref p)) event args;
        Publish (OnQuestTracker (ref p)) event args].

(** The steps of a transition of player [p] from room [A] to room [B], in
    the order section 4.3 of the specification lists them. *)
Definition transition (p : Player) (A B : RoomRef) (onMoved : Callback)
    : list Effect :=
  [ Publish (OnRoom A) "playerLeave" [APlayer (ref p); ARoom (RoomLive B)];
    RemovePlayer A (ref p);
    AssignRoom (ref p) B;
    AddPlayer B (ref p);
    Invoke onMoved;
    Publish (OnRoom B) "playerEnter" [APlayer (ref p); ARoom (RoomLive A)];
    Publish (OnPlayer (ref p)) "enterRoom" [ARoom (RoomLive B)] ].

(** [moveTo(B)] on a player in room [A] follows the transition protocol:
    it performs the steps of [transition] in that order (the copies the
    quest tracker receives aside), leaves the player out of [A] and in
    [B], and publishes each of the three notifications once. *)
Definition follows_protocol (p : Player) (A B : RoomRef) (onMoved : Callback)
    (w : World) : Prop :=
  exists p' w' relayed,
    moveTo B onMoved p w = Ok (p', w')
    /\ trace w' = trace w ++ transition p A B onMoved ++ relayed
    /\ Forall (fun e => on_quest_tracker e = true) relayed
    /\ room p' = RoomLive B
    /\ (ref p ∉ players w' A)
    /\ (ref p ∈ players w' B)
    /\ count (on_room A "playerLeave") (transition p A B onMoved ++ relayed) = 1
    /\ count (on_room B "playerEnter") (transition p A B onMoved ++ relayed) = 1
    /\ count (on_player (ref p) "enterRoom")
             (transition p A B onMoved ++ relayed) = 1.

(** The exception that ends the reconstruction of a slot, if any: the
    first of the steps of the [try] block to throw. *)
Definition slot_thrown (state : GameState Account Area) (slot : string)
    (itemDef : Value) : option Error :=
  match build_item state itemDef with
  | Err e => Some e
  | Ok newItem =>
      match ItemManager_add_refuses newItem with
      | Some e => Some e
      | None =>
          match Character_equip_refuses newItem slot with
          | Some e => Some e
          | None => Item_emit newItem "spawn"
          end
      end
  end.

(** The item a slot ends up holding: the one built from its descriptor,
    when no step up to [equip] throws. *)
Definition slot_item (state : GameState Account Area) (slot : string)
    (itemDef : Value) : option Item :=
  match build_item state itemDef with
  | Err _ => None
  | Ok newItem =>
      match ItemManager_add_refuses newItem with
      | Some _ => None
      | None =>
          match Character_equip_refuses newItem slot with
          | Some _ => None
          | None => Some newItem
          end
      end
  end.

(** The descriptors the equipment stage works through. *)
Definition descriptors (e : EquipmentField) : gmap string Value :=
  match e with
  | EquipmentLegacy eqDefs => eqDefs
  | _ => ∅
  end.

(** How many slots of [eqDefs] end in an exception. *)
Definition failures (state : GameState Account Area)
    (eqDefs : gmap string Value) : nat :=
  size (filter (fun kv => is_Some (slot_thrown state kv.1 kv.2)) eqDefs).

(** The player as the stages of [hydrate] before the room stage leave
    it, given the hydrated quest tracker and inventory: each slot whose
    reconstruction got through [equip] holds its item. *)
Definition before_room_stage (state : GameState Account Area) (p : Player)
    (tracker : QuestTracker) (inv : Inventory) : Player :=
  set_equipment
    (EquipmentMap (map_imap (slot_item state) (descriptors (equipment p))))
    (set_inventory inv
       (hydrate_account state (set_questTracker tracker (Character_hydrate p)))).

(** The room stage cannot throw: the identifier resolves, or the
    placeholder room exists. *)
Definition room_available (state : GameState Account Area) (f : RoomField)
    : Prop :=
  match f with
  | RoomId id => is_Some (RoomManager state !! id)
                 \/ is_Some (PlaceholderArea state !! "placeholder")
  | _ => True
  end.

(** Two lists hold the same elements. *)
Definition same_set (l1 l2 : list Value) : Prop :=
  forall v, v ∈ l1 <-> v ∈ l2.

(** No room other than the one in the [room] field lists the player
    (section 3 of the specification, field [room]). *)
Definition confined (p : Player) (w : World) : Prop :=
  forall r, ref p ∈ players w r -> room p = RoomLive r.

(** [queueCommand] hands the index of [enqueue] back to its caller and
    publishes it. *)
Definition returns_and_publishes_index (executable : Executable) (lag : Lag)
    (p : Player) (w : World) : Prop :=
  let index := (CommandQueue_enqueue (commandQueue p) executable lag).1 in
  let '(result, _, w') := queueCommand executable lag p w in
  result = VNum index
  /\ exists relayed,
       trace w' = trace w
                  ++ Publish (OnPlayer (ref p)) "commandQueued" [AIndex index]
                  :: relayed
       /\ Forall (fun e => on_quest_tracker e = true) relayed.

End Observations.

(** ** A small world to run the model in *)

Module Fixture.

(** Items, inventories and quest trackers that are the plain data they
    were made from; an item can only be created in an area that exists. *)
#[local] Instance collaborators : Collaborators := {|
  Account := string;
  Area := unit;
  Item := Value;
  Inventory := option Z * Value;
  QuestTracker := QuestData;
  CommandQueue := list (nat * nat);
  Executable := nat;
  Lag := nat;
  Account_name := fun a => a;
  Room_entityReference := fun r =>
    if Pos.eqb r 1 then "limbo:white" else
    if Pos.eqb r 2 then "limbo:black" else "placeholder";
  CommandQueue_new := [];
  CommandQueue_enqueue := fun q e l => (Z.of_nat (length q), q ++ [(e, l)]);
  QuestTracker_new := fun a c => MkQuestData c a;
  QuestTracker_hydrate := fun _ q => Ok q;
  QuestTracker_serialize := fun q => q;
  Inventory_new := fun v => (None, v);
  Inventory_getMax := fun i => i.1;
  Inventory_setMax := fun n i => (Some n, i.2);
  Inventory_hydrate := fun _ i => Ok i;
  Inventory_serialize := fun i => i.2;
  Config_defaultMaxPlayerInventory := None;
  ItemFactory_create := fun _ area entityReference =>
    match area with
    | Some _ => Ok (VObj [("entityReference", entityReference)])
    | None => Err (MkError "Invalid area")
    end;
  Item_initializeInventory := fun i _ => Ok i;
  Item_hydrate := fun _ _ itemDef => Ok itemDef;
  ItemManager_add_refuses := fun _ => None;
  Item_emit := fun _ _ => None;
  Item_serialize := fun i => i;
  Character_equip_refuses := fun _ _ => None;
  PlayerRoles_PLAYER := VNum 0
|}.

Definition state : GameState string unit :=
  {| AccountManager := {[ "ada" := "ada" ]};
     RoomManager := {[ "limbo:white" := 1%positive ]};
     AreaManager := {[ "limbo" := tt ]};
     PlaceholderArea := {[ "placeholder" := 3%positive ]} |}.

Definition sword : Value :=
  VObj [("area", VStr "limbo"); ("entityReference", VStr "limbo:sword");
        ("inventory", VNull)].

(** A descriptor whose area does not exist. *)
Definition corrupt : Value :=
  VObj [("area", VStr "nowhere"); ("entityReference", VStr "nowhere:hat");
        ("inventory", VNull)].

Definition ada_data : PlayerData :=
  {| data_name := "Ada";
     data_account := AccountId "ada";
     data_experience := Some 7%Z;
     data_password := VStr "hash";
     data_prompt := None;
     data_quests := Some (MkQuestInput (Some [VStr "limbo:done"])
                                     (Some [VStr "limbo:todo"]));
     data_role := VUndefined;
     data_room := RoomId "limbo:white";
     data_inventory := VNull;
     data_equipment := EquipmentLegacy {[ "wield" := sword ]};
     data_attributes := [("hp", MkAttribute 5 10 10)];
     data_metadata := VNull |}.

(** The same snapshot with a second, corrupt slot and a room that no
    longer exists. *)
Definition lost_data : PlayerData :=
  {| data_name := "Ada";
     data_account := AccountId "ada";
     data_experience := Some 7%Z;
     data_password := VStr "hash";
     data_prompt := None;
     data_quests := None;
     data_role := VUndefined;
     data_room := RoomId "limbo:gone";
     data_inventory := VNull;
     data_equipment := EquipmentLegacy {[ "wield" := sword; "head" := corrupt ]};
     data_attributes := [("hp", MkAttribute 5 10 10)];
     data_metadata := VNull |}.

(** Data without an account, and the player constructed from it. *)
Definition nobody_data : PlayerData :=
  {| data_name := "Nobody";
     data_account := AccountUndefined;
     data_experience := None;
     data_password := VUndefined;
     data_prompt := None;
     data_quests := None;
     data_role := VUndefined;
     data_room := RoomNull;
     data_inventory := VNull;
     data_equipment := EquipmentAbsent;
     data_attributes := [];
     data_metadata := VNull |}.

Definition anonymous : Player := Player_new 7 nobody_data.

Definition empty_world : World := MkWorld ∅ [] [].

(** Ada, constructed and not yet hydrated, with her [room] field set to
    room 1 and listed there. *)
Definition cold_ada : Player := set_room (RoomLive 1) (Player_new 5 ada_data).

Definition world_with_ada : World := MkWorld {[ 1%positive := {[ 5%positive ]} ]} [] [].

(** Ada in play: hydrated, in room 1. *)
Definition live_ada : Player := set_hydrated true cold_ada.

(** Ada torn down while still in room 1. *)
Definition pruned_ada : Player := set_pruned true live_ada.

End Fixture.

(** ** The rest of the Player *)

(** *** Extra prompts *)

(** The [extraPrompts] map of a player and the three methods that work on
    it (lines 108-125).  They touch no other field, so the map is modelled
    on its own; the constructor starts it empty (line 30).  The order in
    which the map enumerates its entries plays no part in them. *)
Section Prompts.
Context {Renderer : Type}.

(** An entry of the map: [{ removeOnRender, renderer }]. *)
Record ExtraPrompt : Type := MkExtraPrompt {
  removeOnRender : bool;
  renderer : Renderer
}.

(** [new Map()]. *)
Definition extraPrompts_new : gmap string ExtraPrompt := ∅.

(** [Player.addPrompt] (lines 108-110); a missing third argument is
    [false]. *)
Definition addPrompt (id : string) (renderer : Renderer)
    (removeOnRender : option bool) (extraPrompts : gmap string ExtraPrompt)
    : gmap string ExtraPrompt :=
  <[id := MkExtraPrompt (default false removeOnRender) renderer]> extraPrompts.

(** [Player.removePrompt] (lines 115-117). *)
Definition removePrompt (id : string) (extraPrompts : gmap string ExtraPrompt)
    : gmap string ExtraPrompt :=
  delete id extraPrompts.

(** [Player.hasPrompt] (lines 123-125). *)
Definition hasPrompt (id : string) (extraPrompts : gmap string ExtraPrompt)
    : bool :=
  bool_decide (is_Some (extraPrompts !! id)).

End Prompts.
Arguments ExtraPrompt Renderer : clear implicits.

(** *** More ways to read the model *)

Section MoreObservations.
Context {collaborators : Collaborators}.

(** The character [c] occurs in [s]. *)
Fixpoint mentions (c : ascii) (s : string) : bool :=
  match s with
  | EmptyString => false
  | String d rest => Ascii.eqb d c || mentions c rest
  end.

(** The item that reaches the registry for a descriptor: the one built
    from it, when [ItemManager.add] does not throw. *)
Definition slot_registered (state : GameState Account Area) (itemDef : Value)
    : option Item :=
  match build_item state itemDef with
  | Err _ => None
  | Ok newItem =>
      match ItemManager_add_refuses newItem with
      | Some _ => None
      | None => Some newItem
      end
  end.

(** A [spawn] notification published on an item. *)
Definition on_item_spawn (e : Effect) : bool :=
  match e with
  | Publish (OnItem _) event _ => String.eqb event "spawn"
  | _ => false
  end.

(** A notification published on any room. *)
Definition on_any_room (e : Effect) : bool :=
  match e with
  | Publish (OnRoom _) _ _ => true
  | _ => false
  end.

(** How many descriptors of [eqDefs] lead to a registered item. *)
Definition registrations (state : GameState Account Area)
    (eqDefs : gmap string Value) : nat :=
  size (filter (fun kv => is_Some (slot_registered state kv.2)) eqDefs).

(** The world after [moveTo(r)] with the default callback on a player
    whose [room] is already [r], as the room stage of [hydrate] calls it
    (lines 219-220): nothing is left, the player is added to [r] and the
    arrival is announced. *)
Definition arrive (p : Player) (r : RoomRef) (w : World) : World :=
  emit (set_room (RoomLive r) p) "enterRoom" [ARoom (RoomLive r)]
    (Room_emit r "playerEnter" [APlayer (ref p); ARoom (RoomLive r)]
       (call identity_callback
          (Room_addPlayer r (ref p) (record (AssignRoom (ref p) r) w)))).

End MoreObservations.

(** ** Telnet control bytes *)

(** The table of [TelnetSequences.js], in the order of the source. *)
Module TelnetSequences.

Definition IAC : Z := 255.
Definition DONT : Z := 254.
Definition DO : Z := 253.
Definition WONT : Z := 252.
Definition WILL : Z := 251.
Definition SB : Z := 250.
Definition SE : Z := 240.
Definition GA : Z := 249.
Definition EOR : Z := 239.

Definition table : list (string * Z) :=
  [("IAC", IAC); ("DONT", DONT); ("DO", DO); ("WONT", WONT); ("WILL", WILL);
   ("SB", SB); ("SE", SE); ("GA", GA); ("EOR", EOR)].

(** [TelnetSequences[name]]. *)
Definition lookup (name : string) : option Z :=
  (list_to_map table : gmap string Z) !! name.

End TelnetSequences.

(** ** More sample data *)

Module Samples.

(** Items that can be built and registered but never equipped. *)
#[local] Instance cursed : Collaborators := {|
  Account := string;
  Area := unit;
  Item := Value;
  Inventory := option Z * Value;
  QuestTracker := QuestData;
  CommandQueue := list (nat * nat);
  Executable := nat;
  Lag := nat;
  Account_name := fun a => a;
  Room_entityReference := fun _ => "limbo:white";
  CommandQueue_new := [];
  CommandQueue_enqueue := fun q e l => (Z.of_nat (length q), q ++ [(e, l)]);
  QuestTracker_new := fun a c => MkQuestData c a;
  QuestTracker_hydrate := fun _ q => Ok q;
  QuestTracker_serialize := fun q => q;
  Inventory_new := fun v => (None, v);
  Inventory_getMax := fun i => i.1;
  Inventory_setMax := fun n i => (Some n, i.2);
  Inventory_hydrate := fun _ i => Ok i;
  Inventory_serialize := fun i => i.2;
  Config_defaultMaxPlayerInventory := Some 0%Z;
  ItemFactory_create := fun _ _ entityReference =>
    Ok (VObj [("entityReference", entityReference)]);
  Item_initializeInventory := fun i _ => Ok i;
  Item_hydrate := fun _ _ itemDef => Ok itemDef;
  ItemManager_add_refuses := fun _ => None;
  Item_emit := fun _ _ => None;
  Item_serialize := fun i => i;
  Character_equip_refuses := fun _ _ => Some (MkError "Cursed");
  PlayerRoles_PLAYER := VNum 0
|}.

(** Ada's snapshot with an account nobody knows, and with an empty
    account. *)
Definition data_with_account (a : @AccountField Fixture.collaborators)
    : @PlayerData Fixture.collaborators :=
  {| data_name := "Ada";
     data_account := a;
     data_experience := Some 7%Z;
     data_password := VStr "hash";
     data_prompt := None;
     data_quests := None;
     data_role := VUndefined;
     data_room := RoomId "limbo:white";
     data_inventory := VNull;
     data_equipment := EquipmentLegacy {[ "wield" := Fixture.sword ]};
     data_attributes := [("hp", MkAttribute 5 10 10)];
     data_metadata := VNull |}.

Definition ghost_data : @PlayerData Fixture.collaborators :=
  data_with_account (AccountId "ghost").

Definition blank_data : @PlayerData Fixture.collaborators :=
  data_with_account (AccountId "").

(** Ada, not yet hydrated, already holding a sword in a [Map]. *)
Definition armed_ada : @Player Fixture.collaborators :=
  set_equipment (EquipmentMap {[ "wield" := Fixture.sword ]})
    (Player_new 5 Fixture.ada_data).

(** A game state whose placeholder area is empty. *)
Definition bare_state : GameState string unit :=
  {| AccountManager := {[ "ada" := "ada" ]};
     RoomManager := {[ "limbo:white" := 1%positive ]};
     AreaManager := {[ "limbo" := tt ]};
     PlaceholderArea := ∅ |}.

(** Ada's snapshot in the world where nothing can be equipped. *)
Definition cursed_data : @PlayerData cursed :=
  {| data_name := "Ada";
     data_account := AccountId "ada";
     data_experience := None;
     data_password := VStr "hash";
     data_prompt := None;
     data_quests := None;
     data_role := VUndefined;
     data_room := RoomId "limbo:white";
     data_inventory := VNull;
     data_equipment := EquipmentLegacy {[ "wield" := Fixture.sword ]};
     data_attributes := [];
     data_metadata := VNull |}.

End Samples.

(** ** Properties *)

Section Properties.
Context {collaborators : Collaborators}.

(** *** Events *)

Lemma emit_suppressed (p : Player) event args (w : World) :
  __pruned p = true \/ __hydrated p = false -> emit p event args w = w.
Proof.
  intros [Hp | Hh]; unfold emit.
  - by rewrite Hp.
  - rewrite Hh. by destruct (__pruned p).
Qed.

Lemma emit_live (p : Player) event args (w : World) :
  __hydrated p = true -> __pruned p = false ->
  emit p event args w
  = MkWorld (members w) (registry w)
      (trace w ++ [Publish (OnPlayer (ref p)) event args;
                   Publish (OnQuestTracker (ref p)) event args]).
Proof.
  intros Hh Hp. unfold emit. rewrite Hh, Hp. simpl.
  unfold QuestTracker_emit, Character_emit, record. simpl.
  by rewrite <- app_assoc.
Qed.

Lemma emit_members (p : Player) event args (w : World) :
  members (emit p event args w) = members w.
Proof. unfold emit. by destruct (__pruned p || negb (__hydrated p)). Qed.

Lemma emit_registry (p : Player) event args (w : World) :
  registry (emit p event args w) = registry w.
Proof. unfold emit. by destruct (__pruned p || negb (__hydrated p)). Qed.

Lemma emit_trace (p : Player) event args (w : World) :
  trace (emit p event args w) = trace w ++ emitted p event args.
Proof.
  unfold emit, emitted.
  destruct (__pruned p || negb (__hydrated p)); simpl.
  - by rewrite app_nil_r.
  - by rewrite <- app_assoc.
Qed.

(** C4: on a player that is pruned or not hydrated, [emit] reaches no
    subscriber, the quest tracker included, and [save] publishes nothing:
    both return the world they were given, and neither can throw (they
    are total functions into [World]). *)
Theorem inert_player_is_silent (p : Player) event args callback (w : World) :
  __pruned p = true \/ __hydrated p = false ->
  emit p event args w = w /\ save callback p w = w.
Proof.
  intros Hinert. split.
  - by apply emit_suppressed.
  - unfold save. destruct (negb (__hydrated p)); [done |].
    by apply emit_suppressed.
Qed.

(** C5: on a player that is hydrated and not pruned, [emit] publishes the
    event to the subscribers of the player first and then hands the same
    event name and the same arguments to the quest tracker; nothing else
    changes. *)
Theorem emit_relays_to_quest_tracker (p : Player) event args (w : World) :
  __hydrated p = true -> __pruned p = false ->
  trace (emit p event args w)
  = trace w ++ [Publish (OnPlayer (ref p)) event args;
                Publish (OnQuestTracker (ref p)) event args]
  /\ members (emit p event args w) = members w
  /\ registry (emit p event args w) = registry w.
Proof.
  intros Hh Hp. by rewrite emit_live.
Qed.

(** *** Room transitions *)

Lemma players_add (w : World) (r r' : RoomRef) (q : PlayerRef) :
  players (Room_addPlayer r q w) r'
  = if decide (r = r') then {[q]} ∪ players w r else players w r'.
Proof.
  unfold players, Room_addPlayer. simpl.
  rewrite lookup_insert. by case_decide.
Qed.

Lemma players_remove (w : World) (r r' : RoomRef) (q : PlayerRef) :
  players (Room_removePlayer r q w) r'
  = if decide (r = r') then players w r ∖ {[q]} else players w r'.
Proof.
  unfold players, Room_removePlayer. simpl.
  rewrite lookup_insert. by case_decide.
Qed.

Lemma players_record (w : World) (e : Effect) (r : RoomRef) :
  players (record e w) r = players w r.
Proof. done. Qed.

Lemma players_emit (p : Player) event args (w : World) (r : RoomRef) :
  players (emit p event args w) r = players w r.
Proof. unfold players. by rewrite emit_members. Qed.

Lemma room_differs_true (f : RoomField) (r : RoomRef) :
  room_differs f r = true <-> f <> RoomLive r.
Proof.
  destruct f as [| id | r']; simpl; try (split; [congruence | done]).
  rewrite negb_true_iff, Pos.eqb_neq. split; congruence.
Qed.

(** [moveTo] from a live room to a different one. *)
Lemma moveTo_between (p : Player) (A B : RoomRef) onMoved (w : World) :
  room p = RoomLive A -> A <> B ->
  moveTo B onMoved p w
  = Ok (set_room (RoomLive B) p,
        emit (set_room (RoomLive B) p) "enterRoom" [ARoom (RoomLive B)]
          (Room_emit B "playerEnter" [APlayer (ref p); ARoom (RoomLive A)]
             (call onMoved
                (Room_addPlayer B (ref p)
                   (record (AssignRoom (ref p) B)
                      (Room_removePlayer A (ref p)
                         (Room_emit A "playerLeave"
                            [APlayer (ref p); ARoom (RoomLive B)] w))))))).
Proof.
  intros HA Hne. unfold moveTo. rewrite HA. simpl.
  destruct (Pos.eqb_spec A B) as [-> | _]; [done | reflexivity].
Qed.

(** [moveTo] when there is no room to leave. *)
Lemma moveTo_stay (p : Player) (R : RoomRef) onMoved (w : World) :
  room_truthy (room p) && room_differs (room p) R = false ->
  moveTo R onMoved p w
  = Ok (set_room (RoomLive R) p,
        emit (set_room (RoomLive R) p) "enterRoom" [ARoom (RoomLive R)]
          (Room_emit R "playerEnter" [APlayer (ref p); ARoom (room p)]
             (call onMoved
                (Room_addPlayer R (ref p)
                   (record (AssignRoom (ref p) R) w))))).
Proof. intros Hstay. unfold moveTo. by rewrite Hstay. Qed.

Lemma count_app (f : Effect -> bool) (l1 l2 : list Effect) :
  count f (l1 ++ l2) = count f l1 + count f l2.
Proof. induction l1 as [| e l1 IH]; simpl; [done | rewrite IH; lia]. Qed.

Lemma count_relayed (f : Effect -> bool) (l : list Effect) :
  (forall e, on_quest_tracker e = true -> f e = false) ->
  Forall (fun e => on_quest_tracker e = true) l -> count f l = 0.
Proof.
  intros Hf. induction 1 as [| e l He _ IH]; simpl; [done |].
  by rewrite (Hf e He), IH.
Qed.

(** C2, as amended: the transition protocol is followed whenever the
    player is hydrated and not pruned.  The steps are taken in the stated
    order, the player leaves the membership of [A] and joins that of [B],
    and each of the three notifications is published once. *)
Theorem moveTo_follows_protocol (p : Player) (A B : RoomRef) onMoved (w : World) :
  __hydrated p = true -> __pruned p = false ->
  room p = RoomLive A -> A <> B ->
  follows_protocol p A B onMoved w.
Proof.
  intros Hh Hp HA Hne.
  exists (set_room (RoomLive B) p), 
    (emit (set_room (RoomLive B) p) "enterRoom" [ARoom (RoomLive B)]
          (Room_emit B "playerEnter" [APlayer (ref p); ARoom (RoomLive A)]
             (call onMoved
                (Room_addPlayer B (ref p)
                   (record (AssignRoom (ref p) B)
                      (Room_removePlayer A (ref p)
                         (Room_emit A "playerLeave"
                            [APlayer (ref p); ARoom (RoomLive B)] w))))))),
    [Publish (OnQuestTracker (ref p)) "enterRoom" [ARoom (RoomLive B)]].
  split; [by apply moveTo_between |].
  split.
  { rewrite emit_live by done. simpl. rewrite <- !app_assoc. reflexivity. }
  split; [by repeat constructor |].
  split; [done |].
  split.
  { rewrite players_emit. unfold Room_emit, call.
    rewrite !players_record, players_add, decide_False by congruence.
    rewrite players_record, players_remove, decide_True by done.
    apply not_elem_of_difference. right. by apply elem_of_singleton. }
  split.
  { rewrite players_emit. unfold Room_emit, call.
    rewrite !players_record, players_add, decide_True by done.
    set_solver. }
  simpl. rewrite !Pos.eqb_refl. simpl.
  destruct (Pos.eqb_spec B A) as [-> | _]; [done |].
  destruct (Pos.eqb_spec A B) as [-> | _]; done.
Qed.

(** Where [moveTo] leaves the player, from a state in which no room
    other than the player's own lists it. *)
Lemma moveTo_membership (p : Player) (R : RoomRef) onMoved (w : World) :
  confined p w ->
  ((forall id, room p <> RoomId id) -> succeeds (moveTo R onMoved p w))
  /\ forall p' w',
       moveTo R onMoved p w = Ok (p', w') ->
       ref p' = ref p /\ room p' = RoomLive R
       /\ forall r, ref p' ∈ players w' r <-> r = R.
Proof.
  intros Hconf.
  destruct (room_truthy (room p) && room_differs (room p) R) eqn:Hguard.
  - apply andb_true_iff in Hguard as [Ht Hd]. apply room_differs_true in Hd.
    destruct (room p) as [| id | A] eqn:HA; [done | |].
    + split; [intros Hid; by destruct (Hid id) |].
      intros p' w'. unfold moveTo. rewrite HA, Ht. done.
    + assert (A <> R) as Hne by congruence.
      rewrite (moveTo_between p A R onMoved w HA Hne). split; [done |].
      intros p' w' Heq. injection Heq as <- <-. split; [done |]. split; [done |].
      intros r. simpl. rewrite players_emit. unfold Room_emit, call.
      rewrite !players_record, players_add.
      case_decide as HR.
      * subst r. split; [done | set_solver].
      * rewrite players_record, players_remove. case_decide as Hr.
        -- subst r. split; [| congruence].
           intros [_ Hout]%elem_of_difference.
           destruct Hout. by apply elem_of_singleton.
        -- unfold Room_emit. rewrite players_record. split; [| done].
           intros Hin. apply Hconf in Hin. congruence.
  - rewrite (moveTo_stay p R onMoved w Hguard). split; [done |].
    intros p' w' Heq. injection Heq as <- <-. split; [done |]. split; [done |].
    intros r. simpl. rewrite players_emit. unfold Room_emit, call.
    rewrite !players_record, players_add.
    case_decide as HR.
    + subst r. split; [done | set_solver].
    + rewrite players_record. split; [| done].
      intros Hin. apply Hconf in Hin.
      apply andb_false_iff in Hguard as [Ht | Hd].
      * rewrite Hin in Ht. done.
      * rewrite Hin in Hd. simpl in Hd.
        apply negb_false_iff, Pos.eqb_eq in Hd. congruence.
Qed.

(** [moveTo] keeps the player out of every room but its own: the
    condition it starts from holds again when it ends. *)
Lemma moveTo_keeps_confined (p p' : Player) (R : RoomRef) onMoved (w w' : World) :
  confined p w -> moveTo R onMoved p w = Ok (p', w') -> confined p' w'.
Proof.
  intros Hconf Hmove.
  destruct (moveTo_membership p R onMoved w Hconf) as [_ Hafter].
  destruct (Hafter p' w' Hmove) as (_ & Hroom & Hmembers).
  intros r Hin. apply Hmembers in Hin. by subst r.
Qed.

(** C3: if no room other than the player's own lists the player (the
    condition on the [room] field in section 3 of the specification,
    which [moveTo] itself maintains), then after [moveTo(R)] the rooms
    that list the player are [R] and no other, and [room] is [R];
    [moveTo] completes whenever [room] is [null] or a live room, be it
    [R] or another. *)
Theorem moveTo_establishes_membership (p : Player) (R : RoomRef) onMoved
    (w : World) :
  confined p w ->
  ((forall id, room p <> RoomId id) -> succeeds (moveTo R onMoved p w))
  /\ forall p' w',
       moveTo R onMoved p w = Ok (p', w') ->
       ref p' = ref p /\ room p' = RoomLive R
       /\ forall r, ref p' ∈ players w' r <-> r = R.
Proof. apply moveTo_membership. Qed.

(** *** Command queue *)

Lemma queueCommand_unfold (executable : Executable) (lag : Lag)
    (p : Player) (w : World) :
  queueCommand executable lag p w
  = (VUndefined,
     set_commandQueue (CommandQueue_enqueue (commandQueue p) executable lag).2 p,
     emit (set_commandQueue
             (CommandQueue_enqueue (commandQueue p) executable lag).2 p)
          "commandQueued"
          [AIndex (CommandQueue_enqueue (commandQueue p) executable lag).1] w).
Proof.
  unfold queueCommand.
  by destruct (CommandQueue_enqueue (commandQueue p) executable lag).
Qed.

(** C9, as amended: [queueCommand] enqueues the command and returns no
    value; the index that [enqueue] produced travels in the
    [commandQueued] notification, which is published when the player is
    hydrated and not pruned, and not otherwise. *)
Theorem queueCommand_publishes_index (executable : Executable) (lag : Lag)
    (p : Player) (w : World) :
  let index := (CommandQueue_enqueue (commandQueue p) executable lag).1 in
  let queue := (CommandQueue_enqueue (commandQueue p) executable lag).2 in
  (__hydrated p = true -> __pruned p = false ->
   queueCommand executable lag p w
   = (VUndefined, set_commandQueue queue p,
      MkWorld (members w) (registry w)
        (trace w ++ [Publish (OnPlayer (ref p)) "commandQueued" [AIndex index];
                     Publish (OnQuestTracker (ref p)) "commandQueued"
                             [AIndex index]])))
  /\ (__pruned p = true \/ __hydrated p = false ->
      queueCommand executable lag p w
      = (VUndefined, set_commandQueue queue p, w)).
Proof.
  simpl. rewrite queueCommand_unfold. split.
  - intros Hh Hp. by rewrite emit_live.
  - intros Hinert. by rewrite emit_suppressed.
Qed.

(** *** Serialization of the account *)

Lemma serialize_without_account (p : Player) :
  account p = AccountNull ->
  serialize p
  = Err (TypeError "Cannot read properties of null (reading 'name')").
Proof. intros Ha. unfold serialize. by rewrite Ha. Qed.

(** C10: [serialize] on a player whose [account] is [null] throws on the
    read of [this.account.name] and returns no snapshot; a player
    constructed from data without an account is such a player. *)
Theorem serialize_needs_account (p : Player) (self : PlayerRef)
    (data : PlayerData) :
  (account p = AccountNull ->
   serialize p
   = Err (TypeError "Cannot read properties of null (reading 'name')"))
  /\ (data_account data = AccountNull \/ data_account data = AccountUndefined ->
      account (Player_new self data) = AccountNull
      /\ throws (serialize (Player_new self data))).
Proof.
  split; [apply serialize_without_account |].
  intros Hdata.
  assert (account (Player_new self data) = AccountNull) as Ha.
  { simpl. by destruct Hdata as [-> | ->]. }
  split; [done |]. by rewrite serialize_without_account.
Qed.

(** *** Prompt interpolation *)

Lemma obj_get_set (k k' : string) (v : Value) (o : list (string * Value)) :
  obj_get k (obj_set k' v o) = if String.eqb k' k then v else obj_get k o.
Proof.
  induction o as [| [k0 x] o IH]; simpl.
  - destruct (String.eqb_spec k' k); done.
  - destruct (String.eqb_spec k0 k') as [-> | Hne]; simpl.
    + destruct (String.eqb_spec k' k); done.
    + rewrite IH. destruct (String.eqb_spec k0 k) as [-> | Hk]; [| done].
      destruct (String.eqb_spec k' k); congruence.
Qed.

Lemma attributes_fold_other (k : string) (attrs : list (string * Attribute))
    (acc : list (string * Value)) :
  k ∉ attrs.*1 ->
  obj_get k (foldl (fun acc av => obj_set av.1 (attribute_entry av.2) acc)
                   acc attrs)
  = obj_get k acc.
Proof.
  revert acc. induction attrs as [| [k0 a0] attrs IH]; intros acc Hk; [done |].
  simpl in *. apply not_elem_of_cons in Hk as [Hne Hk].
  rewrite IH by done. rewrite obj_get_set.
  destruct (String.eqb_spec k0 k); congruence.
Qed.

Lemma attributes_fold_lookup (k : string) (a : Attribute)
    (attrs : list (string * Attribute)) (acc : list (string * Value)) :
  NoDup attrs.*1 -> (k, a) ∈ attrs ->
  obj_get k (foldl (fun acc av => obj_set av.1 (attribute_entry av.2) acc)
                   acc attrs)
  = attribute_entry a.
Proof.
  revert acc. induction attrs as [| [k0 a0] attrs IH]; intros acc Hnd Hin.
  - by apply elem_of_nil in Hin.
  - simpl in *. apply NoDup_cons in Hnd as [Hk0 Hnd].
    apply elem_of_cons in Hin as [Heq | Hin].
    + injection Heq as <- <-.
      rewrite attributes_fold_other by done.
      by rewrite obj_get_set, String.eqb_refl.
    + by apply IH.
Qed.

Lemma attributes_fold_shape (k : string) (attrs : list (string * Attribute))
    (acc : list (string * Value)) :
  (obj_get k acc = VUndefined \/ exists a, obj_get k acc = attribute_entry a) ->
  let o := foldl (fun acc av => obj_set av.1 (attribute_entry av.2) acc)
                 acc attrs in
  obj_get k o = VUndefined \/ exists a, obj_get k o = attribute_entry a.
Proof.
  revert acc. induction attrs as [| [k0 a0] attrs IH]; intros acc Hacc; [done |].
  simpl. apply IH. rewrite obj_get_set. simpl.
  destruct (String.eqb k0 k); [right; by exists a0 | done].
Qed.

Lemma interpolate_loop_step (fuel : nat) (promptData : Value)
    (promptStr before token after : string) :
  match_token promptStr = Some (before, token, after) ->
  interpolate_loop (S fuel) promptData promptStr
  = interpolate_loop fuel promptData
      (String_replace ("%" +:+ token +:+ "%")
                      (resolve_token promptData token) promptStr).
Proof. intros Hm. simpl. by rewrite Hm. Qed.

Lemma interpolate_loop_done (fuel : nat) (promptData : Value)
    (promptStr : string) :
  match_token promptStr = None ->
  interpolate_loop fuel promptData promptStr = Some promptStr.
Proof. intros Hm. destruct fuel; simpl; by rewrite Hm. Qed.

(** C8: with [hp] at 5 of 10 the prompt ["%hp.current% / %hp.max%"]
    becomes ["5 / 10"], and ["%unknown.path%"] becomes ["invalid-token"]
    on every player; two rounds of the loop, respectively one, are
    enough, and more change nothing. *)
Theorem interpolatePrompt_examples (p : Player) (base : Z) (fuel : nat) :
  (NoDup (attributes p).*1 ->
   ("hp", MkAttribute 5 10 base) ∈ attributes p ->
   interpolatePrompt (S (S fuel)) p "%hp.current% / %hp.max%" [] = Some "5 / 10")
  /\ interpolatePrompt (S fuel) p "%unknown.path%" [] = Some "invalid-token".
Proof.
  unfold interpolatePrompt, Object_assign. simpl foldl. split.
  - intros Hnd Hin.
    pose proof (attributes_fold_lookup "hp" _ _ [] Hnd Hin) as Hhp.
    fold (attributeData p) in Hhp.
    generalize dependent (attributeData p). intros promptData Hhp.
    rewrite (interpolate_loop_step _ _ _ "" "hp.current" " / %hp.max%")
      by reflexivity.
    assert (resolve_token (VObj promptData) "hp.current" = VNum 5) as ->.
    { unfold resolve_token.
      change (split_dots "hp.current") with ["hp"; "current"]%string.
      simpl. by rewrite Hhp. }
    change (String_replace ("%" +:+ "hp.current" +:+ "%") (VNum 5)
              "%hp.current% / %hp.max%") with "5 / %hp.max%".
    rewrite (interpolate_loop_step _ _ _ "5 / " "hp.max" "") by reflexivity.
    assert (resolve_token (VObj promptData) "hp.max" = VNum 10) as ->.
    { unfold resolve_token.
      change (split_dots "hp.max") with ["hp"; "max"]%string.
      simpl. by rewrite Hhp. }
    by apply interpolate_loop_done.
  - pose proof (attributes_fold_shape "unknown" (attributes p) []
                  (or_introl eq_refl)) as Hshape.
    simpl in Hshape. fold (attributeData p) in Hshape.
    generalize dependent (attributeData p). intros promptData Hshape.
    rewrite (interpolate_loop_step _ _ _ "" "unknown.path" "") by reflexivity.
    assert (resolve_token (VObj promptData) "unknown.path"
            = VStr "invalid-token") as ->.
    { unfold resolve_token.
      change (split_dots "unknown.path") with ["unknown"; "path"]%string.
      simpl. destruct Hshape as [-> | [a ->]]; done. }
    by apply interpolate_loop_done.
Qed.

(** *** Hydration *)

Lemma set_equipment_same (p : Player) (e : EquipmentField) :
  equipment p = e -> set_equipment e p = p.
Proof. intros <-. by destruct p. Qed.

Lemma count_logged_emitted (p : Player) event args :
  count logged (emitted p event args) = 0.
Proof. unfold emitted. by destruct (__pruned p || negb (__hydrated p)). Qed.

(** One slot: the state and the exception the [try] block leaves. *)
Lemma try_slot_spec (state : GameState Account Area) (slot : string)
    (itemDef : Value) (p : Player) (w : World) (m : gmap string Item) :
  equipment p = EquipmentMap m ->
  exists w' ext,
    try_slot state slot itemDef p w
    = (set_equipment
         (EquipmentMap (match slot_item state slot itemDef with
                        | Some item => <[slot := item]> m
                        | None => m
                        end)) p,
       w', slot_thrown state slot itemDef)
    /\ members w' = members w
    /\ trace w' = trace w ++ ext
    /\ count logged ext = 0.
Proof.
  intros Hm. unfold try_slot, slot_item, slot_thrown.
  destruct (build_item state itemDef) as [newItem | e].
  2: { exists w, []. rewrite set_equipment_same, app_nil_r; done. }
  unfold ItemManager_add.
  destruct (ItemManager_add_refuses newItem) as [e |].
  { exists w, []. rewrite set_equipment_same, app_nil_r; done. }
  unfold Character_equip.
  destruct (Character_equip_refuses newItem slot) as [e |].
  { exists (set_registry (registry w ++ [newItem]) w), [].
    rewrite set_equipment_same, app_nil_r; done. }
  eexists _, [Publish (OnItem newItem) "spawn" []].
  unfold equipment_map. rewrite Hm. done.
Qed.

(** One round of the loop: at most one diagnostic, the message of the
    exception that was thrown. *)
Lemma hydrate_slot_spec (state : GameState Account Area) (slot : string)
    (itemDef : Value) (p : Player) (w : World) (m : gmap string Item) :
  equipment p = EquipmentMap m ->
  exists w' ext,
    hydrate_slot state slot itemDef (p, w)
    = (set_equipment
         (EquipmentMap (match slot_item state slot itemDef with
                        | Some item => <[slot := item]> m
                        | None => m
                        end)) p, w')
    /\ members w' = members w
    /\ trace w' = trace w ++ ext
    /\ count logged ext
       = match slot_thrown state slot itemDef with Some _ => 1 | None => 0 end
    /\ forall e, slot_thrown state slot itemDef = Some e ->
                 LogError (message e) ∈ ext.
Proof.
  intros Hm. unfold hydrate_slot. simpl.
  destruct (try_slot_spec state slot itemDef p w m Hm)
    as (w' & ext & -> & Hmem & Htr & Hcount).
  destruct (slot_thrown state slot itemDef) as [e |].
  - exists (record (LogError (message e)) w'), (ext ++ [LogError (message e)]).
    split; [done |]. split; [done |]. split.
    { simpl. by rewrite Htr, <- app_assoc. }
    split.
    { rewrite count_app, Hcount. done. }
    intros e' [= <-]. apply elem_of_app. right. by apply list_elem_of_singleton.
  - exists w', ext. by repeat split.
Qed.

Lemma failures_insert (state : GameState Account Area)
    (eqDefs : gmap string Value) (slot : string) (itemDef : Value) :
  eqDefs !! slot = None ->
  failures state (<[slot := itemDef]> eqDefs)
  = failures state eqDefs + match slot_thrown state slot itemDef with Some _ => 1 | None => 0 end.
Proof.
  intros Hslot. unfold failures. rewrite map_filter_insert. simpl.
  case_decide as Hthrown.
  - rewrite map_size_insert_None.
    + destruct Hthrown as [e ->]. lia.
    + apply map_lookup_filter_None_2. by left.
  - rewrite delete_id by done.
    destruct (slot_thrown state slot itemDef) as [e |]; [| lia].
    destruct Hthrown. by exists e.
Qed.

(** The equipment stage: it always ends, each slot that got through
    [equip] holds its item whatever became of the others, and every
    exception left exactly one diagnostic. *)
Lemma hydrate_equipment_spec (state : GameState Account Area)
    (p : Player) (w : World) :
  exists w' ext,
    hydrate_equipment state p w
    = (set_equipment
         (EquipmentMap (map_imap (slot_item state) (descriptors (equipment p))))
         p, w')
    /\ members w' = members w
    /\ trace w' = trace w ++ ext
    /\ count logged ext = failures state (descriptors (equipment p))
    /\ forall slot itemDef e,
         descriptors (equipment p) !! slot = Some itemDef ->
         slot_thrown state slot itemDef = Some e ->
         LogError (message e) ∈ ext.
Proof.
  unfold hydrate_equipment.
  assert (failures state ∅ = 0) as Hnone.
  { unfold failures. by rewrite map_filter_empty, map_size_empty. }
  destruct (equipment p) as [| eqDefs | m] eqn:Heq; simpl.
  1, 3: exists w, []; rewrite map_imap_empty, app_nil_r, Hnone;
        repeat split; try done; intros ? ? ? Hl; by rewrite lookup_empty in Hl.
  apply (map_fold_weak_ind
    (fun (r : Player * World) (defs : gmap string Value) =>
       exists w' ext,
         r = (set_equipment (EquipmentMap (map_imap (slot_item state) defs)) p, w')
         /\ members w' = members w
         /\ trace w' = trace w ++ ext
         /\ count logged ext = failures state defs
         /\ forall slot itemDef e,
              defs !! slot = Some itemDef ->
              slot_thrown state slot itemDef = Some e ->
              LogError (message e) ∈ ext)).
  - exists w, []. rewrite map_imap_empty, app_nil_r, Hnone.
    repeat split; try done; intros ? ? ? Hl; by rewrite lookup_empty in Hl.
  - intros slot itemDef defs r Hfresh (w1 & ext1 & -> & Hmem & Htr & Hcount & Hlog).
    destruct (hydrate_slot_spec state slot itemDef
                (set_equipment (EquipmentMap (map_imap (slot_item state) defs)) p)
                w1 _ eq_refl)
      as (w2 & ext2 & -> & Hmem2 & Htr2 & Hcount2 & Hlog2).
    exists w2, (ext1 ++ ext2). split.
    { f_equal. simpl. rewrite map_imap_insert.
      destruct (slot_item state slot itemDef); [done |].
      rewrite delete_id; [done |]. by rewrite map_lookup_imap, Hfresh. }
    split; [congruence |]. split.
    { by rewrite Htr2, Htr, <- app_assoc. }
    split.
    { by rewrite count_app, Hcount, Hcount2, failures_insert. }
    intros slot' itemDef' e Hl Hthrown. apply elem_of_app.
    apply lookup_insert_Some in Hl as [[<- <-] | [_ Hl]].
    + right. by apply Hlog2.
    + left. by eapply Hlog.
Qed.

Lemma inventory_hydrate_account (state : GameState Account Area) (p : Player) :
  inventory (hydrate_account state p) = inventory p.
Proof. unfold hydrate_account. by destruct (account p). Qed.

Lemma equipment_hydrate_account (state : GameState Account Area) (p : Player) :
  equipment (hydrate_account state p) = equipment p.
Proof. unfold hydrate_account. by destruct (account p). Qed.

Lemma before_room_stage_fields (state : GameState Account Area) (p : Player)
    (tracker : QuestTracker) (inv : Inventory) :
  let q := before_room_stage state p tracker inv in
  ref q = ref p /\ name q = name p /\ room q = room p
  /\ __hydrated q = true /\ __pruned q = __pruned p
  /\ questTracker q = tracker
  /\ account q = account (hydrate_account state p)
  /\ equipment q
     = EquipmentMap (map_imap (slot_item state) (descriptors (equipment p))).
Proof.
  unfold before_room_stage, hydrate_account. simpl.
  destruct (account p); done.
Qed.

(** [hydrate] up to the room stage, when the quest tracker and the
    inventory hydrate without an exception. *)
Lemma hydrate_stages (state : GameState Account Area) (p : Player) (w : World)
    (tracker : QuestTracker) (inv : Inventory) :
  QuestTracker_hydrate state (questTracker p) = Ok tracker ->
  Inventory_hydrate state (inventory p) = Ok inv ->
  exists w1 ext,
    hydrate state p w
    = hydrate_room state (before_room_stage state p tracker inv) w1
    /\ members w1 = members w
    /\ trace w1 = trace w ++ ext
    /\ count logged ext = failures state (descriptors (equipment p))
    /\ forall slot itemDef e,
         descriptors (equipment p) !! slot = Some itemDef ->
         slot_thrown state slot itemDef = Some e ->
         LogError (message e) ∈ ext.
Proof.
  intros Htracker Hinv. unfold hydrate.
  change (questTracker (Character_hydrate p)) with (questTracker p).
  rewrite Htracker. simpl.
  rewrite inventory_hydrate_account. simpl. rewrite Hinv. simpl.
  set (q := set_inventory inv
              (hydrate_account state
                 (set_questTracker tracker (Character_hydrate p)))).
  destruct (hydrate_equipment_spec state q w)
    as (w1 & ext & -> & Hmem & Htr & Hcount & Hlog).
  assert (equipment q = equipment p) as Heq.
  { unfold q. simpl. by rewrite equipment_hydrate_account. }
  rewrite Heq in *. exists w1, ext. done.
Qed.

(** The room stage with a room to go to: the player is placed there by
    [moveTo], which has no room to leave at that point. *)
Lemma hydrate_room_placed (p : Player) (r : RoomRef) (w : World) :
  moveTo r identity_callback (set_room (RoomLive r) p) w
  = Ok (set_room (RoomLive r) p,
        emit (set_room (RoomLive r) p) "enterRoom" [ARoom (RoomLive r)]
          (Room_emit r "playerEnter" [APlayer (ref p); ARoom (RoomLive r)]
             (call identity_callback
                (Room_addPlayer r (ref p)
                   (record (AssignRoom (ref p) r) w))))).
Proof.
  rewrite moveTo_stay; [done |].
  simpl. by rewrite Pos.eqb_refl.
Qed.

Lemma hydrate_room_succeeds (state : GameState Account Area)
    (p : Player) (w : World) :
  room_available state (room p) ->
  exists p' w' ext,
    hydrate_room state p w = Ok (p', w')
    /\ __hydrated p' = __hydrated p
    /\ equipment p' = equipment p
    /\ trace w' = trace w ++ ext.
Proof.
  intros Havail. unfold hydrate_room.
  destruct (room p) as [| id | r] eqn:Hroom.
  1, 3: exists p, w, []; by rewrite app_nil_r.
  simpl in Havail.
  destruct (RoomManager state !! id) as [r |] eqn:Hr.
  - rewrite hydrate_room_placed. eexists _, _, _. split; [done |].
    split; [done |]. split; [done |].
    rewrite emit_trace. simpl. rewrite <- !app_assoc. reflexivity.
  - destruct Havail as [[? ?] | [ph Hph]]; [done |]. rewrite Hph.
    rewrite hydrate_room_placed. eexists _, _, _. split; [done |].
    split; [done |]. split; [done |].
    rewrite emit_trace. simpl. rewrite <- !app_assoc. reflexivity.
Qed.

(** C6: when the [equipment] field is a slot-to-descriptor object, an
    exception in the reconstruction of a slot is caught and its message
    logged, the other slots are still processed (a slot holds its item
    exactly when its own reconstruction got through [equip], whatever
    became of the others), and [hydrate] as a whole ends with the player
    hydrated, provided its other stages do not throw. *)
Theorem hydrate_isolates_equipment_failures
    (state : GameState Account Area) (p : Player) (w : World)
    (eqDefs : gmap string Value) (tracker : QuestTracker) (inv : Inventory) :
  equipment p = EquipmentLegacy eqDefs ->
  QuestTracker_hydrate state (questTracker p) = Ok tracker ->
  Inventory_hydrate state (inventory p) = Ok inv ->
  room_available state (room p) ->
  exists p' w' m,
    hydrate state p w = Ok (p', w')
    /\ __hydrated p' = true
    /\ equipment p' = EquipmentMap m
    /\ (forall slot, m !! slot = eqDefs !! slot ≫= slot_item state slot)
    /\ (forall slot itemDef e,
          eqDefs !! slot = Some itemDef ->
          slot_thrown state slot itemDef = Some e ->
          LogError (message e) ∈ trace w').
Proof.
  intros Heq Htracker Hinv Havail.
  destruct (hydrate_stages state p w tracker inv Htracker Hinv)
    as (w1 & ext & -> & _ & Htr & _ & Hlog).
  destruct (before_room_stage_fields state p tracker inv)
    as (_ & _ & Hroom & Hhyd & _ & _ & _ & Hmap).
  destruct (hydrate_room_succeeds state
              (before_room_stage state p tracker inv) w1)
    as (p' & w' & ext' & -> & Hhyd' & Heq' & Htr').
  { by rewrite Hroom. }
  rewrite Heq in *. simpl in *.
  exists p', w', (map_imap (slot_item state) eqDefs).
  split; [done |]. split; [congruence |]. split; [congruence |].
  split; [intros slot; apply map_lookup_imap |].
  intros slot itemDef e Hl Hthrown.
  rewrite Htr', Htr. apply elem_of_app. left. apply elem_of_app. right.
  by eapply Hlog.
Qed.

(** C7: when the room identifier of the snapshot does not resolve,
    [hydrate] logs one diagnostic that names the player and the
    identifier, places the player in the placeholder room through
    [moveTo] (the room lists the player, and the notifications of an
    arrival are published), and ends with the player hydrated.  The only
    other diagnostics are those of equipment slots that failed. *)
Theorem hydrate_falls_back_to_placeholder
    (state : GameState Account Area) (p : Player) (w : World)
    (id : string) (ph : RoomRef) (tracker : QuestTracker) (inv : Inventory) :
  room p = RoomId id ->
  RoomManager state !! id = None ->
  PlaceholderArea state !! "placeholder" = Some ph ->
  QuestTracker_hydrate state (questTracker p) = Ok tracker ->
  Inventory_hydrate state (inventory p) = Ok inv ->
  exists p' w' before entered,
    hydrate state p w = Ok (p', w')
    /\ __hydrated p' = true
    /\ room p' = RoomLive ph
    /\ (ref p ∈ players w' ph)
    /\ trace w'
       = trace w ++ before
         ++ [LogError (invalid_room_message p id);
             AssignRoom (ref p) ph;
             AddPlayer ph (ref p);
             Invoke identity_callback;
             Publish (OnRoom ph) "playerEnter"
                     [APlayer (ref p); ARoom (RoomLive ph)]]
         ++ entered
    /\ Forall (fun e => on_player (ref p) "enterRoom" e = true
                        \/ on_quest_tracker e = true) entered
    /\ count logged before = failures state (descriptors (equipment p))
    /\ count logged (trace w')
       = count logged (trace w) + failures state (descriptors (equipment p)) + 1.
Proof.
  intros Hroom Hgone Hph Htracker Hinv.
  destruct (hydrate_stages state p w tracker inv Htracker Hinv)
    as (w1 & ext & -> & _ & Htr & Hcount & _).
  destruct (before_room_stage_fields state p tracker inv)
    as (Href & Hname & Hroom' & Hhyd & _).
  set (q := before_room_stage state p tracker inv) in *.
  clearbody q.
  unfold hydrate_room. rewrite Hroom', Hroom, Hgone, Hph.
  rewrite hydrate_room_placed.
  assert (invalid_room_message q id = invalid_room_message p id) as ->.
  { unfold invalid_room_message. by rewrite Hname. }
  rewrite Href.
  eexists _, _, ext,
    (emitted (set_room (RoomLive ph) q) "enterRoom" [ARoom (RoomLive ph)]).
  split; [reflexivity |].
  split; [done |]. split; [done |]. split.
  { rewrite players_emit. unfold Room_emit, call.
    rewrite !players_record, players_add, decide_True by done.
    apply elem_of_union_l. by apply elem_of_singleton. }
  assert (forall l,
            trace (emit (set_room (RoomLive ph) q) "enterRoom" l
                     (Room_emit ph "playerEnter"
                        [APlayer (ref p); ARoom (RoomLive ph)]
                        (call identity_callback
                           (Room_addPlayer ph (ref p)
                              (record (AssignRoom (ref p) ph)
                                 (record (LogError (invalid_room_message p id))
                                    w1))))))
            = trace w ++ ext
              ++ [LogError (invalid_room_message p id);
                  AssignRoom (ref p) ph;
                  AddPlayer ph (ref p);
                  Invoke identity_callback;
                  Publish (OnRoom ph) "playerEnter"
                          [APlayer (ref p); ARoom (RoomLive ph)]]
              ++ emitted (set_room (RoomLive ph) q) "enterRoom" l) as Htrace.
  { intros l. rewrite emit_trace. simpl. rewrite Htr, <- !app_assoc. done. }
  split; [apply Htrace |]. split.
  { unfold emitted.
    destruct (__pruned _ || negb (__hydrated _)); [constructor |].
    constructor; [left; simpl; by rewrite ?Href, Pos.eqb_refl |].
    constructor; [by right | constructor]. }
  split; [done |].
  rewrite Htrace, !count_app, count_logged_emitted, Hcount. simpl. lia.
Qed.

(** *** Round trip *)

(** C1: a snapshot whose room, account and equipment descriptors resolve
    is reproduced by [hydrate] followed by [serialize]: the result carries
    the same room identifier, the same occupied equipment slots with
    equivalent item content, and the same active and completed quests.
    What the classes outside [Player] contribute is taken as given: the
    room directory files a room under its own identifier, an item
    serializes to content equivalent to the descriptor it was built from,
    and the quest tracker gives back the quests it was seeded with. *)
Theorem serialize_hydrate_round_trip
    (equivalent : Value -> Value -> Prop)
    (state : GameState Account Area) (self : PlayerRef) (S : PlayerData)
    (w : World) (id accountId : string) (r : RoomRef) (a : Account)
    (tracker : QuestTracker) (inv : Inventory) :
  let quests := questData_of (data_quests S) in
  let eqDefs := descriptors (data_equipment S) in
  data_room S = RoomId id ->
  RoomManager state !! id = Some r ->
  Room_entityReference r = id ->
  data_account S = AccountId accountId ->
  accountId <> "" ->
  AccountManager state !! accountId = Some a ->
  (forall slot itemDef,
     eqDefs !! slot = Some itemDef ->
     exists item, slot_item state slot itemDef = Some item
                  /\ equivalent itemDef (Item_serialize item)) ->
  QuestTracker_hydrate state
    (QuestTracker_new (active quests) (completed quests)) = Ok tracker ->
  same_set (active (QuestTracker_serialize tracker)) (active quests) ->
  same_set (completed (QuestTracker_serialize tracker)) (completed quests) ->
  Inventory_hydrate state (inventory (Player_new self S)) = Ok inv ->
  exists p' w' S' eq',
    hydrate state (Player_new self S) w = Ok (p', w')
    /\ serialize p' = Ok S'
    /\ snapshot_room S' = VStr id
    /\ snapshot_equipment S' = Some eq'
    /\ dom eq' = dom eqDefs
    /\ (forall slot itemDef,
          eqDefs !! slot = Some itemDef ->
          exists serialized,
            eq' !! slot = Some serialized /\ equivalent itemDef serialized)
    /\ same_set (active (snapshot_quests S')) (active quests)
    /\ same_set (completed (snapshot_quests S')) (completed quests).
Proof.
  intros quests eqDefs Hroom Hr Hid Haccount Hname Ha Hitems Htracker
    Hactive Hcompleted Hinv.
  destruct (hydrate_stages state (Player_new self S) w tracker inv Htracker Hinv)
    as (w1 & ext & -> & _).
  destruct (before_room_stage_fields state (Player_new self S) tracker inv)
    as (_ & _ & Hroom' & _ & _ & Htracker' & Haccount' & Hequipment').
  set (q := before_room_stage state (Player_new self S) tracker inv) in *.
  clearbody q.
  unfold hydrate_room. rewrite Hroom'. simpl room. rewrite Hroom, Hr.
  rewrite hydrate_room_placed.
  assert (account q = AccountLive a) as Hlive.
  { rewrite Haccount'. unfold hydrate_account. simpl account.
    rewrite Haccount. simpl.
    destruct (String.eqb_spec accountId ""); [done |].
    unfold getAccount. by rewrite Ha. }
  eexists _, _, _, (Item_serialize <$> map_imap (slot_item state) eqDefs).
  split; [reflexivity |].
  unfold serialize. simpl account. rewrite Hlive. simpl.
  split; [reflexivity |]. simpl.
  split; [by rewrite Hid |].
  split; [by rewrite Hequipment' |].
  split.
  { rewrite dom_fmap_L. apply dom_imap_L. intros slot.
    rewrite elem_of_dom. split.
    - intros [itemDef Hl]. exists itemDef. split; [done |].
      destruct (Hitems slot itemDef Hl) as (item & -> & _). by exists item.
    - intros (itemDef & Hl & _). by exists itemDef. }
  split.
  { intros slot itemDef Hl.
    destruct (Hitems slot itemDef Hl) as (item & Hitem & Hequiv).
    exists (Item_serialize item). split; [| done].
    by rewrite lookup_fmap, map_lookup_imap, Hl; simpl; rewrite Hitem. }
  by rewrite Htracker'.
Qed.

End Properties.

(** ** The properties at work on the small world *)

Section Examples.
#[local] Existing Instance Fixture.collaborators.

(** C1 at work: Ada's snapshot comes back with her room, her sword in the
    [wield] slot and her quests. *)
Lemma serialize_hydrate_round_trip_witness :
  exists p' w' S' eq',
    hydrate Fixture.state (Player_new 5 Fixture.ada_data) Fixture.empty_world
    = Ok (p', w')
    /\ serialize p' = Ok S'
    /\ snapshot_room S' = VStr "limbo:white"
    /\ snapshot_equipment S' = Some eq'
    /\ dom eq' = {[ "wield" ]}
    /\ eq' !! "wield" = Some Fixture.sword
    /\ same_set (active (snapshot_quests S')) [VStr "limbo:todo"]
    /\ same_set (completed (snapshot_quests S')) [VStr "limbo:done"].
Proof.
  destruct (serialize_hydrate_round_trip
              (collaborators := Fixture.collaborators) eq Fixture.state 5 Fixture.ada_data
              Fixture.empty_world "limbo:white" "ada" 1 "ada"
              (MkQuestData [VStr "limbo:done"] [VStr "limbo:todo"])
              (Some 20%Z, VNull))
    as (p' & w' & S' & eq' & Hhydrate & Hserialize & Hroom & Heq & Hdom
        & Hitems & Hactive & Hcompleted);
    try reflexivity.
  - discriminate.
  - intros slot itemDef Hslot.
    change (({[ "wield" := Fixture.sword ]} : gmap string Value) !! slot
            = Some itemDef) in Hslot.
    apply lookup_singleton_Some in Hslot as [<- <-].
    exists Fixture.sword. split; reflexivity.
  - done.
  - done.
  - exists p', w', S', eq'.
    split; [exact Hhydrate |]. split; [exact Hserialize |].
    split; [exact Hroom |]. split; [exact Heq |].
    split; [rewrite Hdom; apply dom_singleton_L |].
    split; [| split; [exact Hactive | exact Hcompleted]].
    destruct (Hitems "wield" Fixture.sword eq_refl) as (serialized & -> & <-).
    reflexivity.
Defined.

(** C2 at work: Ada, in play, walks from room 1 to room 2. *)
Lemma moveTo_follows_protocol_witness :
  __hydrated Fixture.live_ada = true /\ __pruned Fixture.live_ada = false
  /\ room Fixture.live_ada = RoomLive 1 /\ 1%positive <> 2%positive
  /\ follows_protocol Fixture.live_ada 1 2 identity_callback
       Fixture.world_with_ada.
Proof.
  repeat (split; [done |]).
  by apply moveTo_follows_protocol.
Defined.

(** C2 refuted as stated: Ada stands in room 1, constructed but not
    hydrated, or already pruned; [moveTo] takes her to room 2 and
    publishes no [enterRoom]. *)
Lemma moveTo_inert_player_skips_enterRoom :
  (room Fixture.cold_ada = RoomLive 1
   /\ ~ follows_protocol Fixture.cold_ada 1 2 identity_callback
         Fixture.world_with_ada)
  /\ (room Fixture.pruned_ada = RoomLive 1
      /\ ~ follows_protocol Fixture.pruned_ada 1 2 identity_callback
            Fixture.world_with_ada).
Proof.
  split; (split; [reflexivity |]);
    intros (p' & w' & relayed & Hmove & Htrace & _).
  - rewrite (moveTo_between Fixture.cold_ada 1 2) in Hmove by done.
    injection Hmove as _ <-.
    rewrite emit_suppressed in Htrace by (by right).
    apply (f_equal length) in Htrace. simpl in Htrace. lia.
  - rewrite (moveTo_between Fixture.pruned_ada 1 2) in Hmove by done.
    injection Hmove as _ <-.
    rewrite emit_suppressed in Htrace by (by left).
    apply (f_equal length) in Htrace. simpl in Htrace. lia.
Defined.

Lemma confined_ada : confined Fixture.live_ada Fixture.world_with_ada.
Proof.
  intros r. unfold players. simpl.
  destruct (decide (r = 1%positive)) as [-> | Hne]; [done |].
  rewrite lookup_singleton_ne by done. simpl.
  intros Hin. by apply elem_of_empty in Hin.
Qed.

(** C3 at work: after the walk, room 2 and no other lists Ada. *)
Lemma moveTo_establishes_membership_witness :
  confined Fixture.live_ada Fixture.world_with_ada
  /\ exists p' w',
       moveTo 2 identity_callback Fixture.live_ada Fixture.world_with_ada
       = Ok (p', w')
       /\ room p' = RoomLive 2
       /\ forall r, ref p' ∈ players w' r <-> r = 2%positive.
Proof.
  split; [apply confined_ada |].
  destruct (moveTo_establishes_membership Fixture.live_ada 2 identity_callback
              Fixture.world_with_ada confined_ada) as [_ Hafter].
  eexists _, _. split; [reflexivity |].
  destruct (Hafter _ _ eq_refl) as (_ & Hroom & Hmembers). by split.
Defined.

(** C4 at work: nothing is heard from Ada before she is hydrated. *)
Lemma inert_player_is_silent_witness :
  (__pruned Fixture.cold_ada = true \/ __hydrated Fixture.cold_ada = false)
  /\ emit Fixture.cold_ada "look" [] Fixture.world_with_ada
     = Fixture.world_with_ada
  /\ save (AFunction identity_callback) Fixture.cold_ada Fixture.world_with_ada
     = Fixture.world_with_ada.
Proof.
  split; [by right |].
  apply inert_player_is_silent. by right.
Defined.

(** C5 at work: what Ada emits in play reaches the quest tracker too. *)
Lemma emit_relays_to_quest_tracker_witness :
  __hydrated Fixture.live_ada = true /\ __pruned Fixture.live_ada = false
  /\ trace (emit Fixture.live_ada "look" [AIndex 3] Fixture.world_with_ada)
     = [Publish (OnPlayer 5) "look" [AIndex 3];
        Publish (OnQuestTracker 5) "look" [AIndex 3]].
Proof.
  repeat (split; [done |]).
  by destruct (emit_relays_to_quest_tracker Fixture.live_ada "look" [AIndex 3]
                 Fixture.world_with_ada eq_refl eq_refl) as [-> _].
Defined.

(** C6 at work: the hat from nowhere is logged, the sword is wielded, and
    Ada is hydrated. *)
Lemma hydrate_isolates_equipment_failures_witness :
  slot_thrown Fixture.state "head" Fixture.corrupt
  = Some (MkError "Invalid area")
  /\ exists p' w' m,
       hydrate Fixture.state (Player_new 5 Fixture.lost_data)
         Fixture.empty_world = Ok (p', w')
       /\ __hydrated p' = true
       /\ equipment p' = EquipmentMap m
       /\ m !! "wield" = Some Fixture.sword
       /\ m !! "head" = None
       /\ LogError "Invalid area" ∈ trace w'.
Proof.
  split; [reflexivity |].
  destruct (hydrate_isolates_equipment_failures
              (collaborators := Fixture.collaborators) Fixture.state
              (Player_new 5 Fixture.lost_data) Fixture.empty_world
              {[ "wield" := Fixture.sword; "head" := Fixture.corrupt ]}
              (MkQuestData [] []) (Some 20%Z, VNull))
    as (p' & w' & m & Hhydrate & Hhydrated & Hmap & Hslots & Hlog);
    try reflexivity.
  { right. by exists 3%positive. }
  exists p', w', m.
  split; [exact Hhydrate |]. split; [exact Hhydrated |].
  split; [exact Hmap |].
  split; [rewrite Hslots; reflexivity |].
  split; [rewrite Hslots; reflexivity |].
  apply (Hlog "head" Fixture.corrupt (MkError "Invalid area")); reflexivity.
Defined.

(** C7 at work: Ada's room is gone; she wakes up in the placeholder room,
    with one diagnostic for the room and one for the hat. *)
Lemma hydrate_falls_back_to_placeholder_witness :
  room (Player_new 5 Fixture.lost_data) = RoomId "limbo:gone"
  /\ RoomManager Fixture.state !! "limbo:gone" = None
  /\ PlaceholderArea Fixture.state !! "placeholder" = Some 3%positive
  /\ exists p' w',
       hydrate Fixture.state (Player_new 5 Fixture.lost_data)
         Fixture.empty_world = Ok (p', w')
       /\ __hydrated p' = true
       /\ room p' = RoomLive 3
       /\ (5%positive ∈ players w' 3)
       /\ LogError "ERROR: Player Ada was saved to invalid room limbo:gone."
            ∈ trace w'
       /\ count logged (trace w') = 2.
Proof.
  repeat (split; [reflexivity |]).
  destruct (hydrate_falls_back_to_placeholder
              (collaborators := Fixture.collaborators) Fixture.state
              (Player_new 5 Fixture.lost_data) Fixture.empty_world
              "limbo:gone" 3 (MkQuestData [] []) (Some 20%Z, VNull)
              eq_refl eq_refl eq_refl eq_refl eq_refl)
    as (p' & w' & before & entered & Hhydrate & Hhydrated & Hroom & Hin
        & Htrace & _ & _ & Hcount).
  exists p', w'.
  split; [exact Hhydrate |]. split; [exact Hhydrated |].
  split; [exact Hroom |]. split; [exact Hin |].
  split; [| exact Hcount].
  rewrite Htrace. apply elem_of_app. right. apply elem_of_app. right.
  apply elem_of_app. left. apply elem_of_cons. by left.
Defined.

(** C8 at work: Ada's prompt. *)
Lemma interpolatePrompt_examples_witness :
  NoDup (attributes Fixture.live_ada).*1
  /\ ("hp", MkAttribute 5 10 10) ∈ attributes Fixture.live_ada
  /\ interpolatePrompt 2 Fixture.live_ada "%hp.current% / %hp.max%" []
     = Some "5 / 10"
  /\ interpolatePrompt 1 Fixture.live_ada "%unknown.path%" []
     = Some "invalid-token".
Proof.
  assert (NoDup (attributes Fixture.live_ada).*1) as Hnd
    by apply NoDup_singleton.
  assert (("hp", MkAttribute 5 10 10) ∈ attributes Fixture.live_ada) as Hin
    by (apply elem_of_cons; by left).
  destruct (interpolatePrompt_examples Fixture.live_ada 10 0) as [Hhp Hunknown].
  split; [exact Hnd |]. split; [exact Hin |].
  split; [exact (Hhp Hnd Hin) | exact Hunknown].
Defined.

(** C9 at work: Ada queues a command; the index 0 is published and
    nothing is returned. *)
Lemma queueCommand_publishes_index_witness :
  __hydrated Fixture.live_ada = true /\ __pruned Fixture.live_ada = false
  /\ (queueCommand (collaborators := Fixture.collaborators) 1 1 Fixture.live_ada Fixture.world_with_ada).1.1
     = VUndefined
  /\ trace (queueCommand (collaborators := Fixture.collaborators) 1 1 Fixture.live_ada Fixture.world_with_ada).2
     = [Publish (OnPlayer 5) "commandQueued" [AIndex 0];
        Publish (OnQuestTracker 5) "commandQueued" [AIndex 0]].
Proof.
  repeat (split; [done |]).
  destruct (queueCommand_publishes_index (collaborators := Fixture.collaborators)
              1 1 Fixture.live_ada
              Fixture.world_with_ada) as [Hlive _].
  by rewrite (Hlive eq_refl eq_refl).
Defined.

(** C9 refuted as stated: the caller gets [undefined], not the index,
    whether Ada is in play or not; and before she is hydrated nothing is
    published either. *)
Lemma queueCommand_returns_undefined :
  ~ returns_and_publishes_index (collaborators := Fixture.collaborators)
      1 1 Fixture.live_ada Fixture.world_with_ada
  /\ ~ returns_and_publishes_index (collaborators := Fixture.collaborators)
      1 1 Fixture.cold_ada Fixture.world_with_ada
  /\ trace (queueCommand (collaborators := Fixture.collaborators) 1 1 Fixture.cold_ada Fixture.world_with_ada).2 = [].
Proof.
  unfold returns_and_publishes_index.
  rewrite !queueCommand_unfold.
  split; [by intros [? _] |]. split; [by intros [? _] |].
  reflexivity.
Defined.

(** C10 at work: a player made from data without an account cannot be
    serialized. *)
Lemma serialize_needs_account_witness :
  data_account Fixture.nobody_data = AccountUndefined
  /\ account Fixture.anonymous = AccountNull
  /\ throws (serialize Fixture.anonymous).
Proof.
  split; [reflexivity |].
  destruct (serialize_needs_account Fixture.anonymous 7 Fixture.nobody_data)
    as [_ Hdata].
  apply Hdata. by right.
Defined.

End Examples.

(** ** Further properties of the Player *)

Section PromptProperties.
Context {Renderer : Type}.

(** After [addPrompt(id, ...)] the prompt is there, [removePrompt(id)]
    takes it away again, and neither changes what [hasPrompt] answers for
    another id. *)
Theorem prompt_add_remove (id other : string) (renderer : Renderer)
    (removeOnRender : option bool)
    (extraPrompts : gmap string (ExtraPrompt Renderer)) :
  hasPrompt id (addPrompt id renderer removeOnRender extraPrompts) = true
  /\ hasPrompt id
       (removePrompt id (addPrompt id renderer removeOnRender extraPrompts))
     = false
  /\ (other <> id ->
      hasPrompt other (addPrompt id renderer removeOnRender extraPrompts)
      = hasPrompt other extraPrompts
      /\ hasPrompt other (removePrompt id extraPrompts)
         = hasPrompt other extraPrompts).
Proof.
  unfold hasPrompt, addPrompt, removePrompt. split; [| split].
  - apply bool_decide_eq_true. rewrite lookup_insert_eq. by eexists.
  - apply bool_decide_eq_false. rewrite lookup_delete_eq. by intros [? ?].
  - intros Hne. by rewrite lookup_insert_ne, lookup_delete_ne.
Qed.

(** Adding a prompt under an id that is taken replaces the entry: the
    later renderer and flag are the ones kept, the number of prompts does
    not grow, and a missing flag is stored as [false]. *)
Theorem prompt_add_replaces (id : string) (first second : Renderer)
    (flag1 flag2 : option bool)
    (extraPrompts : gmap string (ExtraPrompt Renderer)) :
  let once := addPrompt id first flag1 extraPrompts in
  let twice := addPrompt id second flag2 once in
  twice = addPrompt id second flag2 extraPrompts
  /\ twice !! id = Some (MkExtraPrompt (default false flag2) second)
  /\ size twice = size once
  /\ addPrompt id first None extraPrompts !! id
     = Some (MkExtraPrompt false first).
Proof.
  unfold addPrompt. simpl. split; [apply insert_insert_eq |].
  split; [apply lookup_insert_eq |].
  split; [| apply lookup_insert_eq].
  rewrite insert_insert_eq.
  rewrite !map_size_insert. by destruct (extraPrompts !! id).
Qed.

(** Removing a prompt that is not there changes nothing, and on a new
    player there is no prompt to be found. *)
Theorem prompt_remove_missing (id : string)
    (extraPrompts : gmap string (ExtraPrompt Renderer)) :
  (hasPrompt id extraPrompts = false ->
   removePrompt id extraPrompts = extraPrompts)
  /\ hasPrompt id (extraPrompts_new (Renderer := Renderer)) = false.
Proof.
  unfold hasPrompt, removePrompt, extraPrompts_new. split.
  - intros Hmissing. apply bool_decide_eq_false in Hmissing.
    apply delete_id. by apply eq_None_not_Some.
  - apply bool_decide_eq_false. rewrite lookup_empty. by intros [? ?].
Qed.

End PromptProperties.

Section TelnetProperties.

(** The control bytes are bytes, no two names share one, and [IAC] is the
    largest of them. *)
Theorem telnet_codes_distinct_bytes :
  Forall (fun entry => (0 <= entry.2 <= 255)%Z /\ (entry.2 <= TelnetSequences.IAC)%Z)
         TelnetSequences.table
  /\ NoDup TelnetSequences.table.*2
  /\ NoDup TelnetSequences.table.*1
  /\ forall name1 name2 code,
       TelnetSequences.lookup name1 = Some code ->
       TelnetSequences.lookup name2 = Some code ->
       name1 = name2.
Proof.
  assert (NoDup TelnetSequences.table.*2) as Hcodes.
  { apply (bool_decide_unpack _). by vm_compute. }
  assert (NoDup TelnetSequences.table.*1) as Hnames.
  { apply (bool_decide_unpack _). by vm_compute. }
  split.
  { unfold TelnetSequences.table. repeat constructor; by vm_compute. }
  split; [done |]. split; [done |].
  intros name1 name2 code H1 H2. unfold TelnetSequences.lookup in *.
  apply elem_of_list_to_map in H1; [| done].
  apply elem_of_list_to_map in H2; [| done].
  apply list_elem_of_lookup in H1 as [i Hi], H2 as [j Hj].
  assert (i = j) as <-.
  { eapply NoDup_lookup; [exact Hcodes | |];
      rewrite list_lookup_fmap; [by rewrite Hi | by rewrite Hj]. }
  congruence.
Qed.

End TelnetProperties.

Section InterpolationProperties.
Context {collaborators : Collaborators}.

Lemma match_token_without_percent (s : string) :
  mentions "%" s = false -> match_token s = None.
Proof.
  induction s as [| c rest IH]; [done |]. simpl.
  intros [Hc Hrest]%orb_false_iff. rewrite Hc, (IH Hrest). done.
Qed.

Lemma span_token_spec (s tok rest : string) :
  span_token s = (tok, rest) ->
  s = tok +:+ rest
  /\ Forall (fun c => is_token_char c = true) (String.list_ascii_of_string tok).
Proof.
  revert tok rest. induction s as [| c s IH]; intros tok rest; simpl.
  - intros [= <- <-]. by split.
  - destruct (is_token_char c) eqn:Hc.
    + destruct (span_token s) as [tok' rest'] eqn:Hspan.
      intros [= <- <-]. destruct (IH tok' rest' eq_refl) as [-> Hall].
      split; [done |]. simpl. by constructor.
    + intros [= <- <-]. by split.
Qed.

(** A template without a percent sign comes back as it is, without a
    single round of the loop, whatever the attributes and the extra
    data. *)
Theorem interpolatePrompt_plain_text (fuel : nat) (p : Player)
    (promptStr : string) (extraData : list (string * Value)) :
  mentions "%" promptStr = false ->
  interpolatePrompt fuel p promptStr extraData = Some promptStr.
Proof.
  intros Hplain. unfold interpolatePrompt.
  apply interpolate_loop_done. by apply match_token_without_percent.
Qed.

(** What the pattern of line 89 finds: the template is the text before
    the match, the token between two percent signs and the text after it;
    the token is not empty and made of lower-case letters and dots. *)
Theorem match_token_splits (s before token after : string) :
  match_token s = Some (before, token, after) ->
  s = before +:+ "%" +:+ token +:+ "%" +:+ after
  /\ token <> ""
  /\ Forall (fun c => is_token_char c = true) (String.list_ascii_of_string token).
Proof.
  revert before. induction s as [| c s IH]; intros before; [done |].
  assert (match match_token s with
          | Some (b, t, a) => Some (String c b, t, a)
          | None => None
          end = Some (before, token, after) ->
          String c s = before +:+ "%" +:+ token +:+ "%" +:+ after
          /\ token <> ""
          /\ Forall (fun c => is_token_char c = true)
                    (String.list_ascii_of_string token)) as Hlater.
  { destruct (match_token s) as [[[b t] a] |]; [| done].
    intros [= <- <- <-]. destruct (IH b eq_refl) as (-> & Hne & Hall).
    by repeat split. }
  simpl. destruct (Ascii.eqb_spec c "%") as [-> | _]; [| exact Hlater].
  destruct (span_token s) as [tok rest] eqn:Hspan.
  destruct tok as [| t ts]; [exact Hlater |].
  destruct rest as [| d rest]; [exact Hlater |].
  destruct (Ascii.eqb_spec d "%") as [-> | _]; [| exact Hlater].
  intros [= <- <- <-].
  destruct (span_token_spec _ _ _ Hspan) as [-> Hall].
  split; [| split; [done | exact Hall]].
  reflexivity.
Qed.

Lemma expand_replacement_plain (rep matched before after : string) :
  mentions "$" rep = false ->
  expand_replacement rep matched before after = rep.
Proof.
  induction rep as [| c rep IH]; [done |]. simpl.
  intros [Hc Hrest]%orb_false_iff. rewrite Hc. by rewrite IH.
Qed.

Lemma append_empty (s : string) : s +:+ "" = s.
Proof.
  induction s as [| c s IH]; [done |].
  change (String c (s +:+ "") = String c s). by rewrite IH.
Qed.

Lemma promptData_extra_wins (p : Player) (key : string) (v : Value) :
  obj_get key (Object_assign (attributeData p) [(key, v)]) = v.
Proof.
  unfold Object_assign. simpl. by rewrite obj_get_set, String.eqb_refl.
Qed.

(** Extra data wins over an attribute of the same name: with [hp] given
    in the extra data, ["%hp.current%"] becomes the text given there,
    whatever attributes the player has. *)
Theorem interpolatePrompt_extra_data_wins (fuel : nat) (p : Player)
    (text : string) :
  mentions "%" text = false ->
  mentions "$" text = false ->
  interpolatePrompt (S fuel) p "%hp.current%"
    [("hp", VObj [("current", VStr text)])]
  = Some text.
Proof.
  intros Hpercent Hdollar. unfold interpolatePrompt.
  pose proof (promptData_extra_wins p "hp" (VObj [("current", VStr text)]))
    as Hhp.
  generalize dependent (Object_assign (attributeData p)
                          [("hp", VObj [("current", VStr text)])]).
  intros promptData Hhp.
  rewrite (interpolate_loop_step _ _ _ "" "hp.current" "") by reflexivity.
  assert (resolve_token (VObj promptData) "hp.current" = VStr text) as ->.
  { unfold resolve_token.
    change (split_dots "hp.current") with ["hp"; "current"]%string.
    simpl. by rewrite Hhp. }
  unfold String_replace.
  change (String.index 0 ("%" +:+ "hp.current" +:+ "%") "%hp.current%")
    with (Some 0).
  cbv iota beta zeta.
  change (String.substring 0 0 "%hp.current%") with "".
  change (String.substring (0 + String.length ("%" +:+ "hp.current" +:+ "%"))
            (String.length "%hp.current%"
             - (0 + String.length ("%" +:+ "hp.current" +:+ "%")))
            "%hp.current%") with "".
  rewrite append_empty. simpl to_string.
  rewrite expand_replacement_plain by done. simpl.
  apply interpolate_loop_done. by apply match_token_without_percent.
Qed.

Lemma interpolate_loop_stuck (promptData : list (string * Value))
    (v : Value) (fuel : nat) :
  obj_get "a" promptData = v ->
  truthy v = true ->
  String_replace "%a%" v "%a%" = "%a%" ->
  interpolate_loop fuel (VObj promptData) "%a%" = None.
Proof.
  intros Ha Htruthy Hsame. induction fuel as [| fuel IH]; [reflexivity |].
  rewrite (interpolate_loop_step _ _ _ "" "a" "") by reflexivity.
  assert (resolve_token (VObj promptData) "a" = v) as ->.
  { unfold resolve_token. change (split_dots "a") with ["a"]%string.
    simpl. rewrite Ha. by destruct v. }
  change ("%" +:+ "a" +:+ "%") with "%a%". by rewrite Hsame.
Qed.

(** A value whose text brings the token back keeps the loop running for
    ever: with the extra data [a] set to ["%a%"], or to the replacement
    pattern ["$&"] (which [replace] expands to the matched text),
    interpolating ["%a%"] is not finished after any number of rounds. *)
Theorem interpolatePrompt_can_loop (fuel : nat) (p : Player) :
  interpolatePrompt fuel p "%a%" [("a", VStr "%a%")] = None
  /\ interpolatePrompt fuel p "%a%" [("a", VStr "$&")] = None.
Proof.
  unfold interpolatePrompt. split.
  - apply (interpolate_loop_stuck _ (VStr "%a%"));
      [apply promptData_extra_wins | reflexivity | reflexivity].
  - apply (interpolate_loop_stuck _ (VStr "$&"));
      [apply promptData_extra_wins | reflexivity | reflexivity].
Qed.

End InterpolationProperties.

Section TransitionProperties.
Context {collaborators : Collaborators}.

Lemma set_room_same (p : Player) (f : RoomField) :
  room p = f -> set_room f p = p.
Proof. intros <-. by destruct p. Qed.

(** [moveTo] into the room the player is already in leaves nobody: no
    [playerLeave] is published and nobody is removed.  The player is
    added again, the callback runs, and [playerEnter] still goes out, with
    the room itself as the room the player came from. *)
Theorem moveTo_same_room (p : Player) (R : RoomRef) onMoved (w : World) :
  room p = RoomLive R ->
  exists w',
    moveTo R onMoved p w = Ok (p, w')
    /\ trace w'
       = trace w
         ++ [AssignRoom (ref p) R;
             AddPlayer R (ref p);
             Invoke onMoved;
             Publish (OnRoom R) "playerEnter"
                     [APlayer (ref p); ARoom (RoomLive R)]]
         ++ emitted p "enterRoom" [ARoom (RoomLive R)]
    /\ players w' R = {[ref p]} ∪ players w R
    /\ (forall r, r <> R -> players w' r = players w r)
    /\ registry w' = registry w.
Proof.
  intros HR. rewrite moveTo_stay.
  2: { rewrite HR. simpl. by rewrite Pos.eqb_refl. }
  rewrite (set_room_same p (RoomLive R) HR), HR.
  eexists. split; [reflexivity |]. split.
  { rewrite emit_trace. simpl. by rewrite <- !app_assoc. }
  split.
  { rewrite players_emit. unfold Room_emit, call.
    by rewrite !players_record, players_add, decide_True. }
  split.
  { intros r Hr. rewrite players_emit. unfold Room_emit, call.
    by rewrite !players_record, players_add, decide_False. }
  by rewrite emit_registry.
Qed.

(** A [room] field that still holds an identifier makes [moveTo] throw
    before anything is published or changed, whatever the destination;
    the empty string counts as no room at all, and [moveTo] goes
    through. *)
Theorem moveTo_from_identifier (p : Player) (id : string) (R : RoomRef)
    onMoved (w : World) :
  room p = RoomId id ->
  (id <> "" ->
   moveTo R onMoved p w = Err (TypeError "this.room.emit is not a function"))
  /\ (id = "" -> succeeds (moveTo R onMoved p w)).
Proof.
  intros Hroom. unfold moveTo. rewrite Hroom. simpl. split.
  - intros Hid. by destruct (String.eqb_spec id "").
  - intros ->. done.
Qed.

(** [moveTo] moves nobody else and changes nothing but the [room] field
    and the membership of the two rooms involved: every other player is
    listed where it was, every other room lists whom it listed, and the
    item registry is as before. *)
Theorem moveTo_frame (p p' : Player) (R : RoomRef) onMoved (w w' : World) :
  moveTo R onMoved p w = Ok (p', w') ->
  p' = set_room (RoomLive R) p
  /\ registry w' = registry w
  /\ (forall r q, q <> ref p -> q ∈ players w' r <-> q ∈ players w r)
  /\ (forall r, r <> R -> room p <> RoomLive r -> players w' r = players w r).
Proof.
  destruct (room_truthy (room p) && room_differs (room p) R) eqn:Hguard.
  - apply andb_true_iff in Hguard as [Ht Hd]. apply room_differs_true in Hd.
    destruct (room p) as [| id | A] eqn:HA; [done | |].
    + unfold moveTo. rewrite HA, Ht. done.
    + assert (A <> R) as Hne by congruence.
      rewrite (moveTo_between p A R onMoved w HA Hne).
      intros Heq. injection Heq as <- <-. split; [done |].
      split; [by rewrite emit_registry |]. split.
      * intros r q Hq. rewrite players_emit. unfold Room_emit, call.
        rewrite !players_record, players_add.
        case_decide as HR.
        -- subst r. rewrite elem_of_union, elem_of_singleton.
           rewrite players_record, players_remove.
           case_decide; [congruence |]. unfold Room_emit.
           rewrite players_record. tauto.
        -- rewrite players_record, players_remove. case_decide as Hr.
           ++ subst r. rewrite elem_of_difference, elem_of_singleton.
              unfold Room_emit. rewrite players_record. tauto.
           ++ by unfold Room_emit; rewrite players_record.
      * intros r HrR HrA. rewrite players_emit. unfold Room_emit, call.
        rewrite !players_record, players_add, decide_False by congruence.
        rewrite players_record, players_remove, decide_False by congruence.
        by unfold Room_emit; rewrite players_record.
  - rewrite (moveTo_stay p R onMoved w Hguard).
    intros Heq. injection Heq as <- <-. split; [done |].
    split; [by rewrite emit_registry |]. split.
    + intros r q Hq. rewrite players_emit. unfold Room_emit, call.
      rewrite !players_record, players_add.
      case_decide as HR; [| by rewrite players_record].
      subst r. rewrite elem_of_union, elem_of_singleton, players_record.
      tauto.
    + intros r HrR _. rewrite players_emit. unfold Room_emit, call.
      by rewrite !players_record, players_add, decide_False, players_record.
Qed.

(** On a player that is pruned or not hydrated [moveTo] still does all of
    its work on the rooms: [playerLeave] on the room left, the change of
    membership, the callback and [playerEnter] on the room entered, in
    that order.  Only the [enterRoom] notification of the player itself
    is missing. *)
Theorem moveTo_inert_player (p : Player) (A B : RoomRef) onMoved (w : World) :
  __pruned p = true \/ __hydrated p = false ->
  room p = RoomLive A -> A <> B ->
  exists w',
    moveTo B onMoved p w = Ok (set_room (RoomLive B) p, w')
    /\ trace w'
       = trace w
         ++ [Publish (OnRoom A) "playerLeave"
                     [APlayer (ref p); ARoom (RoomLive B)];
             RemovePlayer A (ref p);
             AssignRoom (ref p) B;
             AddPlayer B (ref p);
             Invoke onMoved;
             Publish (OnRoom B) "playerEnter"
                     [APlayer (ref p); ARoom (RoomLive A)]]
    /\ (ref p ∉ players w' A)
    /\ (ref p ∈ players w' B).
Proof.
  intros Hinert HA Hne. rewrite (moveTo_between p A B onMoved w HA Hne).
  eexists. split; [reflexivity |].
  rewrite emit_suppressed by done. split.
  { simpl. by rewrite <- !app_assoc. }
  unfold Room_emit, call. split.
  - rewrite !players_record, players_add, decide_False by congruence.
    rewrite players_record, players_remove, decide_True by done.
    apply not_elem_of_difference. right. by apply elem_of_singleton.
  - rewrite !players_record, players_add, decide_True by done.
    apply elem_of_union_l. by apply elem_of_singleton.
Qed.

(** [save] on a player that is hydrated and not pruned publishes one
    [save] event that carries the callback, to the subscribers of the
    player and then to the quest tracker, and changes nothing else. *)
Theorem save_publishes_callback (callback : Arg) (p : Player) (w : World) :
  __hydrated p = true -> __pruned p = false ->
  save callback p w
  = MkWorld (members w) (registry w)
      (trace w ++ [Publish (OnPlayer (ref p)) "save" [callback];
                   Publish (OnQuestTracker (ref p)) "save" [callback]]).
Proof.
  intros Hh Hp. unfold save. rewrite Hh. simpl. by apply emit_live.
Qed.

End TransitionProperties.

Section HydrationProperties.
Context {collaborators : Collaborators}.


Lemma arrive_registry (p : Player) (r : RoomRef) (w : World) :
  registry (arrive p r w) = registry w.
Proof. unfold arrive. by rewrite emit_registry. Qed.

Lemma arrive_trace (p : Player) (r : RoomRef) (w : World) :
  trace (arrive p r w)
  = trace w
    ++ [AssignRoom (ref p) r; AddPlayer r (ref p); Invoke identity_callback;
        Publish (OnRoom r) "playerEnter" [APlayer (ref p); ARoom (RoomLive r)]]
    ++ emitted (set_room (RoomLive r) p) "enterRoom" [ARoom (RoomLive r)].
Proof. unfold arrive. rewrite emit_trace. simpl. by rewrite <- !app_assoc. Qed.

Lemma arrive_players (p : Player) (r r' : RoomRef) (w : World) :
  players (arrive p r w) r'
  = if decide (r = r') then {[ref p]} ∪ players w r else players w r'.
Proof.
  unfold arrive. rewrite players_emit. unfold Room_emit, call.
  by rewrite !players_record, players_add, players_record.
Qed.

(** The three ways the room stage can end well. *)
Lemma hydrate_room_result (state : GameState Account Area)
    (q p' : Player) (w1 w' : World) :
  hydrate_room state q w1 = Ok (p', w') ->
  ((forall id, room q <> RoomId id) /\ p' = q /\ w' = w1)
  \/ (exists id r,
        room q = RoomId id /\ RoomManager state !! id = Some r
        /\ p' = set_room (RoomLive r) q /\ w' = arrive q r w1)
  \/ (exists id ph,
        room q = RoomId id /\ RoomManager state !! id = None
        /\ PlaceholderArea state !! "placeholder" = Some ph
        /\ p' = set_room (RoomLive ph) q
        /\ w' = arrive q ph (record (LogError (invalid_room_message q id)) w1)).
Proof.
  unfold hydrate_room. destruct (room q) as [| id | r] eqn:Hroom.
  1, 3: intros Heq; injection Heq as <- <-; by left.
  destruct (RoomManager state !! id) as [r |] eqn:Hr.
  - rewrite hydrate_room_placed. intros Heq. injection Heq as <- <-.
    right. left. by exists id, r.
  - destruct (PlaceholderArea state !! "placeholder") as [ph |] eqn:Hph;
      [| done].
    rewrite hydrate_room_placed. intros Heq. injection Heq as <- <-.
    right. right. by exists id, ph.
Qed.

(** [hydrate] that ends well went through the quest tracker, the
    inventory and the equipment stage, and ended in the room stage. *)
Lemma hydrate_result (state : GameState Account Area)
    (p p' : Player) (w w' : World) :
  hydrate state p w = Ok (p', w') ->
  exists tracker inv,
    QuestTracker_hydrate state (questTracker p) = Ok tracker
    /\ Inventory_hydrate state (inventory p) = Ok inv
    /\ hydrate_room state (before_room_stage state p tracker inv)
         (hydrate_equipment state
            (set_inventory inv
               (hydrate_account state
                  (set_questTracker tracker (Character_hydrate p)))) w).2
       = Ok (p', w').
Proof.
  unfold hydrate.
  change (questTracker (Character_hydrate p)) with (questTracker p).
  destruct (QuestTracker_hydrate state (questTracker p)) as [tracker | e];
    [| done].
  simpl. rewrite inventory_hydrate_account. simpl.
  destruct (Inventory_hydrate state (inventory p)) as [inv | e]; [| done].
  simpl. intros Hroom. exists tracker, inv. split; [done |]. split; [done |].
  assert (equipment
            (set_inventory inv
               (hydrate_account state
                  (set_questTracker tracker (Character_hydrate p))))
          = equipment p) as Hequipment.
  { simpl. by rewrite equipment_hydrate_account. }
  destruct (hydrate_equipment_spec state
              (set_inventory inv
                 (hydrate_account state
                    (set_questTracker tracker (Character_hydrate p)))) w)
    as (w1 & ext & Heq & _).
  rewrite Hequipment in Heq. rewrite Heq in Hroom. rewrite Heq.
  exact Hroom.
Qed.

Lemma registrations_insert (state : GameState Account Area)
    (eqDefs : gmap string Value) (slot : string) (itemDef : Value) :
  eqDefs !! slot = None ->
  registrations state (<[slot := itemDef]> eqDefs)
  = registrations state eqDefs
    + match slot_registered state itemDef with Some _ => 1 | None => 0 end.
Proof.
  intros Hslot. unfold registrations. rewrite map_filter_insert. simpl.
  case_decide as Hreg.
  - rewrite map_size_insert_None.
    + destruct Hreg as [item ->]. lia.
    + apply map_lookup_filter_None_2. by left.
  - rewrite delete_id by done.
    destruct (slot_registered state itemDef) as [item |]; [| lia].
    destruct Hreg. by exists item.
Qed.

Lemma equipped_insert (state : GameState Account Area)
    (eqDefs : gmap string Value) (slot : string) (itemDef : Value) :
  eqDefs !! slot = None ->
  size (map_imap (slot_item state) (<[slot := itemDef]> eqDefs))
  = size (map_imap (slot_item state) eqDefs)
    + match slot_item state slot itemDef with Some _ => 1 | None => 0 end.
Proof.
  intros Hslot. rewrite map_imap_insert.
  assert (map_imap (slot_item state) eqDefs !! slot = None) as Hfresh
    by (by rewrite map_lookup_imap, Hslot).
  destruct (slot_item state slot itemDef) as [item |].
  - rewrite map_size_insert_None by done. lia.
  - rewrite delete_id by done. lia.
Qed.

(** One round of the loop, as the registry and the record of effects see
    it. *)
Lemma hydrate_slot_effects (state : GameState Account Area) (slot : string)
    (itemDef : Value) (p : Player) (w : World) :
  exists ext,
    registry (hydrate_slot state slot itemDef (p, w)).2
    = registry w ++ match slot_registered state itemDef with
                    | Some item => [item]
                    | None => []
                    end
    /\ members (hydrate_slot state slot itemDef (p, w)).2 = members w
    /\ trace (hydrate_slot state slot itemDef (p, w)).2 = trace w ++ ext
    /\ count on_item_spawn ext
       = match slot_item state slot itemDef with Some _ => 1 | None => 0 end
    /\ count on_any_room ext = 0.
Proof.
  unfold hydrate_slot, try_slot, slot_registered, slot_item. simpl.
  destruct (build_item state itemDef) as [newItem | e]; simpl.
  2: { exists [LogError (message e)]. by rewrite app_nil_r. }
  unfold ItemManager_add.
  destruct (ItemManager_add_refuses newItem) as [e |]; simpl.
  { exists [LogError (message e)]. by rewrite app_nil_r. }
  unfold Character_equip.
  destruct (Character_equip_refuses newItem slot) as [e |]; simpl.
  { by exists [LogError (message e)]. }
  destruct (Item_emit newItem "spawn") as [e |]; simpl.
  - exists [Publish (OnItem newItem) "spawn" []; LogError (message e)].
    by rewrite <- app_assoc.
  - by exists [Publish (OnItem newItem) "spawn" []].
Qed.

(** The equipment stage, as the registry and the record of effects see
    it: each item that was built and registered is appended to the
    registry, one [spawn] goes out per slot that got through [equip], and
    no room hears of it. *)
Lemma hydrate_equipment_effects (state : GameState Account Area)
    (p : Player) (w : World) :
  exists added ext,
    registry (hydrate_equipment state p w).2 = registry w ++ added
    /\ length added = registrations state (descriptors (equipment p))
    /\ (forall slot itemDef item,
          descriptors (equipment p) !! slot = Some itemDef ->
          slot_registered state itemDef = Some item ->
          item ∈ added)
    /\ members (hydrate_equipment state p w).2 = members w
    /\ trace (hydrate_equipment state p w).2 = trace w ++ ext
    /\ count on_item_spawn ext
       = size (map_imap (slot_item state) (descriptors (equipment p)))
    /\ count on_any_room ext = 0.
Proof.
  unfold hydrate_equipment.
  assert (registrations state ∅ = 0) as Hnone.
  { unfold registrations. by rewrite map_filter_empty, map_size_empty. }
  destruct (equipment p) as [| eqDefs | m] eqn:Heq; simpl.
  1, 3: exists [], []; rewrite map_imap_empty, map_size_empty, !app_nil_r, Hnone;
        repeat split; try done; intros ? ? ? Hl; by rewrite lookup_empty in Hl.
  apply (map_fold_weak_ind
    (fun (r : Player * World) (defs : gmap string Value) =>
       exists added ext,
         registry r.2 = registry w ++ added
         /\ length added = registrations state defs
         /\ (forall slot itemDef item,
               defs !! slot = Some itemDef ->
               slot_registered state itemDef = Some item ->
               item ∈ added)
         /\ members r.2 = members w
         /\ trace r.2 = trace w ++ ext
         /\ count on_item_spawn ext = size (map_imap (slot_item state) defs)
         /\ count on_any_room ext = 0)).
  - exists [], []. rewrite map_imap_empty, map_size_empty, !app_nil_r, Hnone.
    repeat split; try done; intros ? ? ? Hl; by rewrite lookup_empty in Hl.
  - intros slot itemDef defs [p1 w1] Hfresh
      (added & ext & Hreg & Hlen & Hin & Hmem & Htr & Hspawn & Hrooms).
    simpl in Hreg, Hmem, Htr.
    destruct (hydrate_slot_effects state slot itemDef p1 w1)
      as (ext2 & Hreg2 & Hmem2 & Htr2 & Hspawn2 & Hrooms2).
    exists (added ++ match slot_registered state itemDef with
                     | Some item => [item]
                     | None => []
                     end), (ext ++ ext2).
    split; [by rewrite Hreg2, Hreg, <- app_assoc |].
    split.
    { rewrite length_app, Hlen, registrations_insert by done.
      by destruct (slot_registered state itemDef). }
    split.
    { intros slot' itemDef' item Hl Hitem. apply elem_of_app.
      apply lookup_insert_Some in Hl as [[<- <-] | [_ Hl]].
      - right. rewrite Hitem. by apply list_elem_of_singleton.
      - left. by eapply Hin. }
    split; [congruence |].
    split; [by rewrite Htr2, Htr, <- app_assoc |].
    split; [by rewrite count_app, Hspawn, Hspawn2, equipped_insert |].
    by rewrite count_app, Hrooms, Hrooms2.
Qed.

(** The fields of the player when [hydrate] returns. *)
Lemma hydrate_fields (state : GameState Account Area)
    (p p' : Player) (w w' : World) :
  hydrate state p w = Ok (p', w') ->
  __hydrated p' = true
  /\ __pruned p' = __pruned p
  /\ ref p' = ref p /\ name p' = name p
  /\ equipment p'
     = EquipmentMap (map_imap (slot_item state) (descriptors (equipment p)))
  /\ account p' = account (hydrate_account state p)
  /\ (forall id, room p' <> RoomId id)
  /\ exists ext, trace w' = trace w ++ ext.
Proof.
  intros Hhydrate.
  destruct (hydrate_result state p p' w w' Hhydrate)
    as (tracker & inv & Htracker & Hinv & Hroom).
  destruct (hydrate_stages state p w tracker inv Htracker Hinv)
    as (w1 & ext & Hsame & _ & Htr & _).
  rewrite Hhydrate in Hsame. symmetry in Hsame. clear Hroom.
  destruct (before_room_stage_fields state p tracker inv)
    as (Href & Hname & Hroom & Hhyd & Hpruned & _ & Haccount & Hequipment).
  set (q := before_room_stage state p tracker inv) in *. clearbody q.
  destruct (hydrate_room_result state q p' w1 w' Hsame)
    as [(Hnot & -> & ->)
       | [(id & r & Hid & Hr & -> & ->) | (id & ph & Hid & Hr & Hph & -> & ->)]].
  - do 6 (split; [done |]). split; [done |]. by exists ext.
  - do 6 (split; [done |]). split; [done |].
    rewrite arrive_trace, Htr, <- app_assoc. by eexists.
  - do 6 (split; [done |]). split; [done |].
    rewrite arrive_trace. simpl. rewrite Htr, <- !app_assoc. by eexists.
Qed.

(** Whenever [hydrate] returns, the player is hydrated, its equipment is
    a [Map] and its [room] is no identifier string any more; its
    identity, its name and its pruned flag are what they were, and the
    record of effects has only grown. *)
Theorem hydrate_leaves_player_resolved (state : GameState Account Area)
    (p p' : Player) (w w' : World) :
  hydrate state p w = Ok (p', w') ->
  __hydrated p' = true
  /\ __pruned p' = __pruned p
  /\ ref p' = ref p /\ name p' = name p
  /\ (exists m, equipment p' = EquipmentMap m)
  /\ (forall id, room p' <> RoomId id)
  /\ exists ext, trace w' = trace w ++ ext.
Proof.
  intros Hhydrate.
  destruct (hydrate_fields state p p' w w' Hhydrate)
    as (Hhyd & Hpruned & Href & Hname & Hequipment & _ & Hroom & Htrace).
  do 4 (split; [done |]). split; [by eexists |]. by split.
Qed.

(** The account stage: an identifier the account directory knows is
    replaced by the account; one it does not know leaves [account]
    undefined, without an error, and a later [serialize] throws; an
    [account] that is no identifier is left alone. *)
Theorem hydrate_resolves_account (state : GameState Account Area)
    (p p' : Player) (w w' : World) :
  hydrate state p w = Ok (p', w') ->
  (forall id a,
     account p = AccountId id -> AccountManager state !! id = Some a ->
     account p' = AccountLive a)
  /\ (forall id,
       account p = AccountId id -> AccountManager state !! id = None ->
       account p' = AccountUndefined /\ throws (serialize p'))
  /\ ((forall id, account p <> AccountId id) -> account p' = account p).
Proof.
  intros Hhydrate.
  destruct (hydrate_fields state p p' w w' Hhydrate)
    as (_ & _ & _ & _ & _ & Haccount & _).
  unfold hydrate_account, getAccount in Haccount. split; [| split].
  - intros id a Hid Ha. by rewrite Hid, Ha in Haccount.
  - intros id Hid Hnone. rewrite Hid in Haccount. simpl in Haccount.
    rewrite Hnone in Haccount. split; [done |].
    unfold serialize. by rewrite Haccount.
  - intros Hnot.
    destruct (account p) as [| | id0 |] eqn:Ha;
      congruence || by destruct (Hnot id0).
Qed.

(** Equipment that is not a slot-to-descriptor object is not kept: when
    the field was absent, or already a [Map] with items in it, [hydrate]
    leaves an empty [Map], and [serialize] then writes an empty
    object. *)
Theorem hydrate_resets_equipment (state : GameState Account Area)
    (p p' : Player) (w w' : World) :
  (forall eqDefs, equipment p <> EquipmentLegacy eqDefs) ->
  hydrate state p w = Ok (p', w') ->
  equipment p' = EquipmentMap ∅
  /\ forall S, serialize p' = Ok S -> snapshot_equipment S = Some ∅.
Proof.
  intros Hshape Hhydrate.
  destruct (hydrate_fields state p p' w w' Hhydrate)
    as (_ & _ & _ & _ & Hequipment & _).
  assert (equipment p' = EquipmentMap ∅) as Hempty.
  { rewrite Hequipment. destruct (equipment p) as [| eqDefs | m]; simpl.
    - by rewrite map_imap_empty.
    - by destruct (Hshape eqDefs).
    - by rewrite map_imap_empty. }
  split; [done |]. intros S. unfold serialize.
  destruct (account_name (account p')); [| done]. simpl.
  intros [= <-]. simpl. rewrite Hempty. by rewrite fmap_empty.
Qed.

(** The room stage when the identifier resolves: the player is placed in
    the room the directory gives, through [moveTo] (the room lists the
    player and the arrival is announced on it), the placeholder is not
    used and no diagnostic is logged for the room. *)
Theorem hydrate_resolved_room (state : GameState Account Area)
    (p : Player) (w : World) (id : string) (r : RoomRef)
    (tracker : QuestTracker) (inv : Inventory) :
  room p = RoomId id ->
  RoomManager state !! id = Some r ->
  QuestTracker_hydrate state (questTracker p) = Ok tracker ->
  Inventory_hydrate state (inventory p) = Ok inv ->
  exists p' w' before,
    hydrate state p w = Ok (p', w')
    /\ room p' = RoomLive r
    /\ (ref p ∈ players w' r)
    /\ trace w'
       = trace w ++ before
         ++ [AssignRoom (ref p) r;
             AddPlayer r (ref p);
             Invoke identity_callback;
             Publish (OnRoom r) "playerEnter"
                     [APlayer (ref p); ARoom (RoomLive r)]]
         ++ emitted p' "enterRoom" [ARoom (RoomLive r)]
    /\ count logged (trace w')
       = count logged (trace w) + failures state (descriptors (equipment p)).
Proof.
  intros Hroom Hr Htracker Hinv.
  destruct (hydrate_stages state p w tracker inv Htracker Hinv)
    as (w1 & ext & -> & _ & Htr & Hcount & _).
  destruct (before_room_stage_fields state p tracker inv)
    as (Href & _ & Hroom' & _).
  set (q := before_room_stage state p tracker inv) in *. clearbody q.
  unfold hydrate_room. rewrite Hroom', Hroom, Hr.
  rewrite hydrate_room_placed. fold (arrive q r w1).
  exists (set_room (RoomLive r) q), (arrive q r w1), ext.
  split; [done |]. split; [done |]. split.
  { rewrite arrive_players, decide_True by done. rewrite Href.
    apply elem_of_union_l. by apply elem_of_singleton. }
  split.
  { rewrite arrive_trace, Htr, Href. by rewrite <- !app_assoc. }
  rewrite arrive_trace, Htr, !count_app, count_logged_emitted, Hcount.
  simpl. lia.
Qed.

(** A [room] that is no identifier string (it is [null], or a live room
    already) is left as it is: [hydrate] does not call [moveTo], so no
    membership set changes and a live room is not made to list the
    player. *)
Theorem hydrate_keeps_other_rooms (state : GameState Account Area)
    (p p' : Player) (w w' : World) :
  (forall id, room p <> RoomId id) ->
  hydrate state p w = Ok (p', w') ->
  room p' = room p
  /\ members w' = members w
  /\ count on_any_room (trace w') = count on_any_room (trace w).
Proof.
  intros Hnot Hhydrate.
  destruct (hydrate_result state p p' w w' Hhydrate)
    as (tracker & inv & Htracker & Hinv & Hroom).
  destruct (before_room_stage_fields state p tracker inv)
    as (_ & _ & Hroom' & _).
  destruct (hydrate_equipment_effects state
              (set_inventory inv
                 (hydrate_account state
                    (set_questTracker tracker (Character_hydrate p)))) w)
    as (added & ext & _ & _ & _ & Hmem & Htr & _ & Hrooms).
  set (q := before_room_stage state p tracker inv) in *. clearbody q.
  destruct (hydrate_room_result state q p' _ w' Hroom)
    as [(_ & -> & ->)
       | [(id & r & Hid & _) | (id & ph & Hid & _)]].
  - split; [done |]. split; [done |].
    rewrite Htr, count_app, Hrooms. lia.
  - rewrite Hroom' in Hid. by destruct (Hnot id).
  - rewrite Hroom' in Hid. by destruct (Hnot id).
Qed.

(** An identifier that does not resolve, in a world whose placeholder
    area has no room named [placeholder], is fatal: [hydrate] throws the
    error of calling [addPlayer] on nothing. *)
Theorem hydrate_without_placeholder (state : GameState Account Area)
    (p : Player) (w : World) (id : string)
    (tracker : QuestTracker) (inv : Inventory) :
  room p = RoomId id ->
  RoomManager state !! id = None ->
  PlaceholderArea state !! "placeholder" = None ->
  QuestTracker_hydrate state (questTracker p) = Ok tracker ->
  Inventory_hydrate state (inventory p) = Ok inv ->
  hydrate state p w
  = Err (TypeError "Cannot read properties of undefined (reading 'addPlayer')").
Proof.
  intros Hroom Hgone Hnone Htracker Hinv.
  destruct (hydrate_stages state p w tracker inv Htracker Hinv)
    as (w1 & ext & -> & _).
  destruct (before_room_stage_fields state p tracker inv)
    as (_ & _ & Hroom' & _).
  unfold hydrate_room. by rewrite Hroom', Hroom, Hgone, Hnone.
Qed.

(** [hydrate] of a player that no room lists, with an identifier in
    [room]: when it returns, the room in the [room] field lists the
    player and no other room does. *)
Theorem hydrate_establishes_membership (state : GameState Account Area)
    (p p' : Player) (w w' : World) (id : string) :
  (forall r, ref p ∉ players w r) ->
  room p = RoomId id ->
  hydrate state p w = Ok (p', w') ->
  forall r, ref p ∈ players w' r <-> room p' = RoomLive r.
Proof.
  intros Hnowhere Hid Hhydrate.
  destruct (hydrate_result state p p' w w' Hhydrate)
    as (tracker & inv & Htracker & Hinv & Hroom).
  destruct (before_room_stage_fields state p tracker inv)
    as (Href & _ & Hroom' & _).
  destruct (hydrate_equipment_effects state
              (set_inventory inv
                 (hydrate_account state
                    (set_questTracker tracker (Character_hydrate p)))) w)
    as (added & ext & _ & _ & _ & Hmem & _).
  set (q := before_room_stage state p tracker inv) in *. clearbody q.
  set (w1 := (hydrate_equipment state _ w).2) in *. clearbody w1.
  assert (forall r, players w1 r = players w r) as Hplayers.
  { intros r. unfold players. by rewrite Hmem. }
  assert (forall target w2,
            (forall r, players w2 r = players w1 r) ->
            forall r, ref p ∈ players (arrive q target w2) r
                      <-> RoomLive target = RoomLive r) as Harrive.
  { intros target w2 Hw2 r. rewrite arrive_players, Href.
    case_decide as Hr.
    - subst r. split; [done |]. intros _.
      apply elem_of_union_l. by apply elem_of_singleton.
    - rewrite Hw2, Hplayers. split; [by intros ?%Hnowhere | congruence]. }
  destruct (hydrate_room_result state q p' w1 w' Hroom)
    as [(Hnot & -> & ->)
       | [(id' & r' & _ & _ & -> & ->) | (id' & ph & _ & _ & _ & -> & ->)]].
  - rewrite Hroom', Hid in Hnot. by destruct (Hnot id).
  - by apply Harrive.
  - by apply Harrive.
Qed.

(** What [hydrate] does to the item registry: it only appends, one item
    per descriptor that could be built and registered.  Registration
    comes before [equip] and is not undone: an item whose [equip] throws
    is in the registry although no slot holds it. *)
Theorem hydrate_registers_items (state : GameState Account Area)
    (p p' : Player) (w w' : World) :
  hydrate state p w = Ok (p', w') ->
  exists added,
    registry w' = registry w ++ added
    /\ length added = registrations state (descriptors (equipment p))
    /\ forall slot itemDef item,
         descriptors (equipment p) !! slot = Some itemDef ->
         slot_registered state itemDef = Some item ->
         item ∈ registry w'
         /\ (is_Some (Character_equip_refuses item slot) ->
             equipment_map p' !! slot = None).
Proof.
  intros Hhydrate.
  destruct (hydrate_fields state p p' w w' Hhydrate)
    as (_ & _ & _ & _ & Hequipment & _).
  destruct (hydrate_result state p p' w w' Hhydrate)
    as (tracker & inv & Htracker & Hinv & Hroom).
  destruct (hydrate_equipment_effects state
              (set_inventory inv
                 (hydrate_account state
                    (set_questTracker tracker (Character_hydrate p)))) w)
    as (added & ext & Hreg & Hlen & Hin & _).
  assert (equipment
            (set_inventory inv
               (hydrate_account state
                  (set_questTracker tracker (Character_hydrate p))))
          = equipment p) as Hsame
    by (simpl; by rewrite equipment_hydrate_account).
  rewrite Hsame in Hlen, Hin.
  set (q := before_room_stage state p tracker inv) in *. clearbody q.
  set (w1 := (hydrate_equipment state _ w).2) in *. clearbody w1.
  assert (registry w' = registry w1) as Hkept.
  { destruct (hydrate_room_result state q p' w1 w' Hroom)
      as [(_ & _ & ->)
         | [(? & ? & _ & _ & _ & ->) | (? & ? & _ & _ & _ & _ & ->)]];
      [done | |]; by rewrite arrive_registry. }
  exists added. rewrite Hkept, Hreg. split; [done |]. split; [done |].
  intros slot itemDef item Hl Hitem. split.
  { apply elem_of_app. right. by eapply Hin. }
  intros [e Hrefused]. unfold equipment_map. rewrite Hequipment.
  rewrite map_lookup_imap, Hl. simpl.
  unfold slot_registered in Hitem. unfold slot_item.
  destruct (build_item state itemDef) as [newItem |]; [| done].
  destruct (ItemManager_add_refuses newItem); [done |].
  injection Hitem as ->. by rewrite Hrefused.
Qed.


End HydrationProperties.

Section LifecycleProperties.
Context {collaborators : Collaborators}.

(** [serialize] returns a snapshot exactly when [account] is neither
    [null] nor [undefined]; the snapshot then carries the experience, the
    metadata, the password, the prompt and the role of the player as they
    are. *)
Theorem serialize_succeeds_iff (p : Player) :
  (succeeds (serialize p)
   <-> account p <> AccountNull /\ account p <> AccountUndefined)
  /\ forall S,
       serialize p = Ok S ->
       snapshot_name S = name p
       /\ snapshot_experience S = experience p
       /\ snapshot_metadata S = metadata p
       /\ snapshot_password S = password p
       /\ snapshot_prompt S = prompt p
       /\ snapshot_role S = role p.
Proof.
  unfold serialize. split.
  - destruct (account p); simpl; split; try done; intros [? ?]; done.
  - intros S. destruct (account_name (account p)); [| done]. simpl.
    by intros [= <-].
Qed.

(** [serialize] before [hydrate]: with [account] still an identifier and
    [equipment] not yet a [Map], it does not throw; it writes [undefined]
    for the account, not the identifier, and [null] for the equipment. *)
Theorem serialize_before_hydrate (p : Player) (id : string) :
  account p = AccountId id ->
  (forall m, equipment p <> EquipmentMap m) ->
  exists S,
    serialize p = Ok S
    /\ snapshot_account S = VUndefined
    /\ snapshot_equipment S = None.
Proof.
  intros Haccount Hshape. unfold serialize. rewrite Haccount. simpl.
  eexists. split; [reflexivity |]. split; [done |]. simpl.
  destruct (equipment p) as [| eqDefs | m]; [done | done |].
  by destruct (Hshape m).
Qed.

(** The inventory of a new player has a finite maximum, given that
    [getMax] reports what [setMax] has set: a finite maximum that the
    inventory brings along is kept, otherwise it is the configured
    default, or 20 when none, or zero, is configured. *)
Theorem Player_new_inventory_max (self : PlayerRef) (data : PlayerData) :
  (forall n inv, Inventory_getMax (Inventory_setMax n inv) = Some n) ->
  let given := Inventory_getMax (Inventory_new (data_inventory data)) in
  Inventory_getMax (inventory (Player_new self data))
  = Some (match given with
          | Some n => n
          | None =>
              match Config_defaultMaxPlayerInventory with
              | Some 0%Z | None => 20%Z
              | Some n => n
              end
          end).
Proof.
  intros Hset given. simpl. subst given.
  destruct (Inventory_getMax (Inventory_new (data_inventory data)))
    as [n |] eqn:Hgiven; [done |].
  rewrite Hset. unfold default_max_inventory.
  destruct Config_defaultMaxPlayerInventory as [[| n | n] |]; done.
Qed.

(** A new player is inert: whatever it is constructed from, what is
    emitted on it, saved or queued before [hydrate] reaches nobody.  Once
    [hydrate] has returned, an event reaches the subscribers of the player
    and the quest tracker. *)
Theorem Player_new_inert_until_hydrated (state : GameState Account Area)
    (self : PlayerRef) (data : PlayerData) (event : string)
    (args : list Arg) (callback : Arg) (w : World) :
  emit (Player_new self data) event args w = w
  /\ save callback (Player_new self data) w = w
  /\ forall p' w',
       hydrate state (Player_new self data) w = Ok (p', w') ->
       trace (emit p' event args w')
       = trace w' ++ [Publish (OnPlayer self) event args;
                      Publish (OnQuestTracker self) event args].
Proof.
  split; [by apply emit_suppressed; right |].
  split; [done |].
  intros p' w' Hhydrate.
  destruct (hydrate_fields state _ p' w w' Hhydrate)
    as (Hhyd & Hpruned & Href & _).
  rewrite emit_live by done. simpl. by rewrite Href.
Qed.

(** An account given as the empty string counts as no account: the
    constructor stores [null], [hydrate] has nothing to resolve, and
    [serialize] throws, before and after hydration. *)
Theorem Player_new_empty_account (state : GameState Account Area)
    (self : PlayerRef) (data : PlayerData) (w : World) :
  data_account data = AccountId "" ->
  account (Player_new self data) = AccountNull
  /\ throws (serialize (Player_new self data))
  /\ forall p' w',
       hydrate state (Player_new self data) w = Ok (p', w') ->
       account p' = AccountNull /\ throws (serialize p').
Proof.
  intros Hdata.
  assert (account (Player_new self data) = AccountNull) as Hnull
    by (simpl; by rewrite Hdata).
  split; [done |]. split; [by rewrite serialize_without_account |].
  intros p' w' Hhydrate.
  destruct (hydrate_fields state _ p' w w' Hhydrate)
    as (_ & _ & _ & _ & _ & Haccount & _).
  unfold hydrate_account in Haccount. rewrite Hnull in Haccount.
  assert (account p' = AccountNull) as Hstill
    by (rewrite Haccount; exact Hnull).
  split; [done |]. by rewrite serialize_without_account.
Qed.

End LifecycleProperties.

(** ** The further properties at work *)

Section FurtherExamples.
#[local] Existing Instance Fixture.collaborators.

(** Adding the prompt [a] does not make a prompt [b] appear. *)
Lemma prompt_add_remove_witness :
  "b" <> "a"
  /\ hasPrompt "a" (addPrompt "a" 1 None (extraPrompts_new (Renderer := nat)))
     = true
  /\ hasPrompt "b" (addPrompt "a" 1 None (extraPrompts_new (Renderer := nat)))
     = false.
Proof.
  destruct (prompt_add_remove "a" "b" 1 None (extraPrompts_new (Renderer := nat)))
    as (Hadded & _ & Hother).
  split; [discriminate |]. split; [exact Hadded |].
  destruct (Hother ltac:(discriminate)) as [-> _]. reflexivity.
Defined.

(** Removing a prompt from a player that has none. *)
Lemma prompt_remove_missing_witness :
  hasPrompt "a" (extraPrompts_new (Renderer := nat)) = false
  /\ removePrompt "a" (extraPrompts_new (Renderer := nat)) = extraPrompts_new.
Proof.
  destruct (prompt_remove_missing "a" (extraPrompts_new (Renderer := nat)))
    as [Hremove Hnew].
  split; [exact Hnew | exact (Hremove Hnew)].
Defined.

(** Byte 249 is [GA] and nothing else. *)
Lemma telnet_codes_distinct_bytes_witness :
  TelnetSequences.lookup "GA" = Some 249%Z
  /\ forall name, TelnetSequences.lookup name = Some 249%Z -> name = "GA".
Proof.
  split; [reflexivity |]. intros name Hname.
  destruct telnet_codes_distinct_bytes as (_ & _ & _ & Hdistinct).
  exact (Hdistinct name "GA" 249%Z Hname eq_refl).
Defined.

(** The default prompt has nothing to interpolate. *)
Lemma interpolatePrompt_plain_text_witness :
  mentions "%" "> " = false
  /\ interpolatePrompt 0 Fixture.live_ada "> " [] = Some "> ".
Proof.
  split; [reflexivity |].
  by apply interpolatePrompt_plain_text.
Defined.

(** The token of a bracketed prompt. *)
Lemma match_token_splits_witness :
  match_token "[%hp.current%]" = Some ("[", "hp.current", "]")
  /\ "[%hp.current%]" = "[" +:+ "%" +:+ "hp.current" +:+ "%" +:+ "]"
  /\ Forall (fun c => is_token_char c = true)
            (String.list_ascii_of_string "hp.current").
Proof.
  split; [reflexivity |].
  destruct (match_token_splits "[%hp.current%]" "[" "hp.current" "]" eq_refl)
    as (Hsplit & _ & Hchars).
  by split.
Defined.

(** Ada has 5 hit points, the extra data say [full]. *)
Lemma interpolatePrompt_extra_data_wins_witness :
  mentions "%" "full" = false /\ mentions "$" "full" = false
  /\ interpolatePrompt 1 Fixture.live_ada "%hp.current%"
       [("hp", VObj [("current", VStr "full")])]
     = Some "full".
Proof.
  split; [reflexivity |]. split; [reflexivity |].
  by apply interpolatePrompt_extra_data_wins.
Defined.

(** Ada moves into room 1, where she is. *)
Lemma moveTo_same_room_witness :
  room Fixture.live_ada = RoomLive 1
  /\ exists w',
       moveTo 1 identity_callback Fixture.live_ada Fixture.world_with_ada
       = Ok (Fixture.live_ada, w')
       /\ count (on_room 1 "playerLeave") (trace w') = 0
       /\ count (on_room 1 "playerEnter") (trace w') = 1.
Proof.
  split; [reflexivity |].
  destruct (moveTo_same_room Fixture.live_ada 1 identity_callback
              Fixture.world_with_ada eq_refl)
    as (w' & Hmove & Htrace & _).
  exists w'. split; [exact Hmove |]. rewrite Htrace. by split.
Defined.

(** Ada, fresh from her snapshot, cannot be moved: her room is still
    the string [limbo:white]. *)
Lemma moveTo_from_identifier_witness :
  room (Player_new 5 Fixture.ada_data) = RoomId "limbo:white"
  /\ "limbo:white" <> ""
  /\ throws (moveTo 2 identity_callback (Player_new 5 Fixture.ada_data)
               Fixture.empty_world).
Proof.
  split; [reflexivity |]. split; [discriminate |].
  destruct (moveTo_from_identifier (Player_new 5 Fixture.ada_data)
              "limbo:white" 2 identity_callback Fixture.empty_world eq_refl)
    as [Hthrows _].
  rewrite Hthrows; [exact I | discriminate].
Defined.

(** Ada walks from room 1 to room 2; player 9 is where it was. *)
Lemma moveTo_frame_witness :
  exists p' w',
    moveTo 2 identity_callback Fixture.live_ada Fixture.world_with_ada
    = Ok (p', w')
    /\ registry w' = registry Fixture.world_with_ada
    /\ forall r, 9%positive ∈ players w' r
                 <-> 9%positive ∈ players Fixture.world_with_ada r.
Proof.
  eexists _, _. split; [apply (moveTo_between Fixture.live_ada 1 2); done |].
  destruct (moveTo_frame Fixture.live_ada _ 2 identity_callback
              Fixture.world_with_ada _
              (moveTo_between Fixture.live_ada 1 2 identity_callback
                 Fixture.world_with_ada eq_refl ltac:(discriminate)))
    as (_ & Hregistry & Hothers & _).
  split; [exact Hregistry |]. intros r. apply Hothers. discriminate.
Defined.

(** Ada, not yet hydrated, is moved from room 1 to room 2. *)
Lemma moveTo_inert_player_witness :
  (__pruned Fixture.cold_ada = true \/ __hydrated Fixture.cold_ada = false)
  /\ room Fixture.cold_ada = RoomLive 1 /\ 1%positive <> 2%positive
  /\ exists w',
       moveTo 2 identity_callback Fixture.cold_ada Fixture.world_with_ada
       = Ok (set_room (RoomLive 2) Fixture.cold_ada, w')
       /\ length (trace w') = 6
       /\ (5%positive ∈ players w' 2).
Proof.
  split; [by right |]. split; [reflexivity |]. split; [discriminate |].
  destruct (moveTo_inert_player Fixture.cold_ada 1 2 identity_callback
              Fixture.world_with_ada (or_intror eq_refl) eq_refl
              ltac:(discriminate))
    as (w' & Hmove & Htrace & _ & Hin).
  exists w'. split; [exact Hmove |]. split; [by rewrite Htrace | exact Hin].
Defined.

(** Ada saves. *)
Lemma save_publishes_callback_witness :
  __hydrated Fixture.live_ada = true /\ __pruned Fixture.live_ada = false
  /\ trace (save (AFunction (user_callback 1)) Fixture.live_ada
              Fixture.world_with_ada)
     = [Publish (OnPlayer 5) "save" [AFunction (user_callback 1)];
        Publish (OnQuestTracker 5) "save" [AFunction (user_callback 1)]].
Proof.
  split; [reflexivity |]. split; [reflexivity |].
  by rewrite (save_publishes_callback (AFunction (user_callback 1))
                Fixture.live_ada Fixture.world_with_ada eq_refl eq_refl).
Defined.

(** Hydrating the snapshot [data] in the sample state ends well. *)
Ltac hydrated_as p' w' Hhydrate :=
  match goal with
  | |- context [@hydrate ?c ?st ?p ?w] =>
      destruct (@hydrate c st p w) as [[p' w'] | ?] eqn:Hhydrate;
      [| vm_compute in Hhydrate; discriminate Hhydrate]
  end.

(** Ada with her lost room and her corrupt hat is resolved all the
    same. *)
Lemma hydrate_leaves_player_resolved_witness :
  exists p' w',
    hydrate Fixture.state (Player_new 5 Fixture.lost_data) Fixture.empty_world
    = Ok (p', w')
    /\ __hydrated p' = true /\ __pruned p' = false
    /\ ref p' = 5%positive /\ name p' = "Ada"
    /\ (exists m, equipment p' = EquipmentMap m)
    /\ forall id, room p' <> RoomId id.
Proof.
  hydrated_as p' w' Hhydrate. exists p', w'. split; [reflexivity |].
  destruct (hydrate_leaves_player_resolved _ _ _ _ _ Hhydrate)
    as (Hhyd & Hpruned & Href & Hname & Hmap & Hroom & _).
  split; [exact Hhyd |]. split; [exact Hpruned |]. split; [exact Href |].
  split; [exact Hname |]. split; [exact Hmap | exact Hroom].
Defined.

(** An account nobody knows: hydration goes through, serialization does
    not. *)
Lemma hydrate_resolves_account_witness :
  account (Player_new 5 Samples.ghost_data) = AccountId "ghost"
  /\ AccountManager Fixture.state !! "ghost" = None
  /\ exists p' w',
       hydrate Fixture.state (Player_new 5 Samples.ghost_data)
         Fixture.empty_world = Ok (p', w')
       /\ account p' = AccountUndefined
       /\ throws (serialize p').
Proof.
  split; [reflexivity |]. split; [reflexivity |].
  hydrated_as p' w' Hhydrate. exists p', w'. split; [reflexivity |].
  destruct (hydrate_resolves_account _ _ _ _ _ Hhydrate) as (_ & Hunknown & _).
  exact (Hunknown "ghost" eq_refl eq_refl).
Defined.

(** The sword Ada held in a [Map] before hydration is gone after it. *)
Lemma hydrate_resets_equipment_witness :
  equipment Samples.armed_ada
  = EquipmentMap {[ "wield" := Fixture.sword ]}
  /\ exists p' w',
       hydrate Fixture.state Samples.armed_ada Fixture.empty_world
       = Ok (p', w')
       /\ equipment p' = EquipmentMap ∅.
Proof.
  split; [reflexivity |].
  hydrated_as p' w' Hhydrate. exists p', w'. split; [reflexivity |].
  refine (proj1 (hydrate_resets_equipment _ _ _ _ _ _ Hhydrate)).
  intros eqDefs. discriminate.
Defined.

(** Ada's room exists: she is placed in it and nothing is logged. *)
Lemma hydrate_resolved_room_witness :
  room (Player_new 5 Fixture.ada_data) = RoomId "limbo:white"
  /\ RoomManager Fixture.state !! "limbo:white" = Some 1%positive
  /\ exists p' w',
       hydrate Fixture.state (Player_new 5 Fixture.ada_data)
         Fixture.empty_world = Ok (p', w')
       /\ room p' = RoomLive 1
       /\ (5%positive ∈ players w' 1)
       /\ count logged (trace w') = 0.
Proof.
  split; [reflexivity |]. split; [reflexivity |].
  destruct (hydrate_resolved_room (collaborators := Fixture.collaborators)
              Fixture.state (Player_new 5 Fixture.ada_data)
              Fixture.empty_world "limbo:white" 1
              (MkQuestData [VStr "limbo:done"] [VStr "limbo:todo"])
              (Some 20%Z, VNull) eq_refl eq_refl eq_refl eq_refl)
    as (p' & w' & before & Hhydrate & Hroom & Hin & _ & Hcount).
  exists p', w'. split; [exact Hhydrate |]. split; [exact Hroom |].
  split; [exact Hin |]. rewrite Hcount. reflexivity.
Defined.

(** Ada with a live room in her [room] field is not made a member of it
    by hydration. *)
Lemma hydrate_keeps_other_rooms_witness :
  room Fixture.cold_ada = RoomLive 1
  /\ exists p' w',
       hydrate Fixture.state Fixture.cold_ada Fixture.empty_world
       = Ok (p', w')
       /\ room p' = RoomLive 1
       /\ members w' = members Fixture.empty_world.
Proof.
  split; [reflexivity |].
  assert (forall id, room Fixture.cold_ada <> RoomId id) as Hlive
    by (intros id; discriminate).
  hydrated_as p' w' Hhydrate. exists p', w'. split; [reflexivity |].
  destruct (hydrate_keeps_other_rooms (collaborators := Fixture.collaborators)
              Fixture.state Fixture.cold_ada p'
              Fixture.empty_world w' Hlive Hhydrate)
    as (Hroom & Hmembers & _).
  split; [exact Hroom | exact Hmembers].
Defined.

(** Ada's room is gone and so is the placeholder. *)
Lemma hydrate_without_placeholder_witness :
  room (Player_new 5 Fixture.lost_data) = RoomId "limbo:gone"
  /\ RoomManager Samples.bare_state !! "limbo:gone" = None
  /\ PlaceholderArea Samples.bare_state !! "placeholder" = None
  /\ throws (hydrate Samples.bare_state (Player_new 5 Fixture.lost_data)
               Fixture.empty_world).
Proof.
  split; [reflexivity |]. split; [reflexivity |]. split; [reflexivity |].
  rewrite (hydrate_without_placeholder (collaborators := Fixture.collaborators)
             Samples.bare_state (Player_new 5 Fixture.lost_data)
             Fixture.empty_world "limbo:gone" (MkQuestData [] [])
             (Some 20%Z, VNull) eq_refl eq_refl eq_refl eq_refl eq_refl).
  exact I.
Defined.

(** After hydration room 1 lists Ada, and only room 1. *)
Lemma hydrate_establishes_membership_witness :
  (forall r, 5%positive ∉ players Fixture.empty_world r)
  /\ exists p' w',
       hydrate Fixture.state (Player_new 5 Fixture.ada_data)
         Fixture.empty_world = Ok (p', w')
       /\ forall r, 5%positive ∈ players w' r <-> room p' = RoomLive r.
Proof.
  assert (forall r, 5%positive ∉ players Fixture.empty_world r) as Hnowhere.
  { intros r. unfold players. simpl. rewrite lookup_empty. simpl.
    apply not_elem_of_empty. }
  split; [exact Hnowhere |].
  hydrated_as p' w' Hhydrate. exists p', w'. split; [reflexivity |].
  exact (hydrate_establishes_membership
           (collaborators := Fixture.collaborators) Fixture.state
           (Player_new 5 Fixture.ada_data) p' Fixture.empty_world w'
           "limbo:white" Hnowhere eq_refl Hhydrate).
Defined.

(** Where nothing can be equipped, the sword is registered and the
    [wield] slot stays empty. *)
Lemma hydrate_registers_items_witness :
  exists p' w',
    hydrate (collaborators := Samples.cursed) Fixture.state
      (Player_new 5 Samples.cursed_data) (MkWorld ∅ [] [])
    = Ok (p', w')
    /\ registry w' = [Fixture.sword]
    /\ equipment_map p' !! "wield" = None.
Proof.
  hydrated_as p' w' Hhydrate. exists p', w'. split; [reflexivity |].
  destruct (hydrate_registers_items (collaborators := Samples.cursed)
              _ _ _ _ _ Hhydrate)
    as (added & Hregistry & Hlength & Hitems).
  destruct (Hitems "wield" Fixture.sword Fixture.sword eq_refl eq_refl)
    as [Hin Hempty].
  split; [| apply Hempty; by eexists].
  rewrite Hregistry in *. simpl in *.
  change (length added = 1) in Hlength.
  destruct added as [| item [| ? ?]]; try discriminate Hlength.
  apply list_elem_of_singleton in Hin. by subst item.
Defined.


(** Ada can be serialized before hydration: her account is a string, not
    [null]. *)
Lemma serialize_succeeds_iff_witness :
  account Fixture.cold_ada <> AccountNull
  /\ account Fixture.cold_ada <> AccountUndefined
  /\ succeeds (serialize Fixture.cold_ada).
Proof.
  split; [discriminate |]. split; [discriminate |].
  apply (proj1 (serialize_succeeds_iff Fixture.cold_ada)).
  split; discriminate.
Defined.

(** What that snapshot says about her account and her equipment. *)
Lemma serialize_before_hydrate_witness :
  account Fixture.cold_ada = AccountId "ada"
  /\ exists S,
       serialize Fixture.cold_ada = Ok S
       /\ snapshot_account S = VUndefined
       /\ snapshot_equipment S = None.
Proof.
  split; [reflexivity |].
  apply (serialize_before_hydrate Fixture.cold_ada "ada" eq_refl).
  intros m. discriminate.
Defined.

(** No maximum in the data, none in the configuration (or zero): 20. *)
Lemma Player_new_inventory_max_witness :
  (forall n (inv : @Inventory Fixture.collaborators),
     Inventory_getMax (Inventory_setMax n inv) = Some n)
  /\ Inventory_getMax (inventory (Player_new 5 Fixture.ada_data)) = Some 20%Z
  /\ @Inventory_getMax Samples.cursed
       (inventory (Player_new 5 Samples.cursed_data)) = Some 20%Z.
Proof.
  split; [reflexivity |]. split.
  - exact (Player_new_inventory_max (collaborators := Fixture.collaborators)
             5 Fixture.ada_data (fun _ _ => eq_refl)).
  - exact (Player_new_inventory_max (collaborators := Samples.cursed)
             5 Samples.cursed_data (fun _ _ => eq_refl)).
Defined.

(** Ada says nothing before hydration and is heard after it. *)
Lemma Player_new_inert_until_hydrated_witness :
  emit (Player_new 5 Fixture.ada_data) "look" [] Fixture.empty_world
  = Fixture.empty_world
  /\ exists p' w',
       hydrate Fixture.state (Player_new 5 Fixture.ada_data)
         Fixture.empty_world = Ok (p', w')
       /\ trace (emit p' "look" [] w')
          = trace w' ++ [Publish (OnPlayer 5) "look" [];
                         Publish (OnQuestTracker 5) "look" []].
Proof.
  destruct (Player_new_inert_until_hydrated
              (collaborators := Fixture.collaborators) Fixture.state 5 Fixture.ada_data
              "look" [] (AValue VNull) Fixture.empty_world)
    as (Hsilent & _ & Hheard).
  split; [exact Hsilent |].
  hydrated_as p' w' Hhydrate. exists p', w'. split; [reflexivity |].
  exact (Hheard p' w' eq_refl).
Defined.

(** A snapshot with an empty account. *)
Lemma Player_new_empty_account_witness :
  data_account Samples.blank_data = AccountId ""
  /\ account (Player_new 5 Samples.blank_data) = AccountNull
  /\ throws (serialize (Player_new 5 Samples.blank_data)).
Proof.
  split; [reflexivity |].
  destruct (Player_new_empty_account
              (collaborators := Fixture.collaborators) Fixture.state 5 Samples.blank_data
              Fixture.empty_world eq_refl) as (Hnull & Hthrows & _).
  by split.
Defined.

End FurtherExamples.
